(** * medImageUtils: resize and 2D slice extraction for volumetric images

    A shallow embedding of [medImageUtils.py] (functions [resize_image] and
    [extract_2d_slices]) together with the Python and [os.path] primitives
    they rely on, followed by the properties of the specification that are
    checked against it.

    Conventions.
    - Python integers are unbounded: they are modelled by [Z]; [//] is
      floor division, which is [Z.div] for the positive divisor used here.
    - Python floats are IEEE 754 binary64 numbers: they are modelled by the
      primitive floats of [PrimFloat].  The arithmetic of [resize_image] is
      written once over an interface [Arith] and instantiated both with
      binary64 (what the program computes) and with the rationals
      (the same formula without rounding).
    - Exceptions are modelled by the error monad [Py.result].
    - Paths follow [posixpath]; strings are strings of bytes.
    - Files are not modelled: a function that reads an image takes the
      decoded image as an argument, and a function that writes files
      returns what it hands to the writer.  The library calls of
      [resize_image] ([sitk.Resample], [sitk.WriteImage], [open] and
      [json.dump]) are parameters that may raise. *)

From Stdlib Require Import ZArith List String Ascii Bool Lia QArith Qabs Lqa.
From Stdlib Require Import Qround Qminmax.
From Stdlib Require Import Floats Uint63 DecimalString DecimalZ.
Import ListNotations.

Local Open Scope Z_scope.

(* ================================================================= *)
(** ** Python primitives *)

Module Py.

(** The exceptions the modelled code can raise.  [LibraryError] stands
    for whatever a library call raises ([RuntimeError] from SimpleITK,
    [OSError] from [open], [TypeError] from [json.dump], ...). *)
Inductive exn : Set :=
| IndexError
| ZeroDivisionError
| LibraryError.

(** A computation either raises or returns. *)
Definition result (A : Type) : Type := (exn + A)%type.

Definition ret {A : Type} (a : A) : result A := inr a.
Definition raise {A : Type} (e : exn) : result A := inl e.

Definition bind {A B : Type} (m : result A) (k : A -> result B) : result B :=
  match m with
  | inl e => inl e
  | inr a => k a
  end.

(** [for x in xs: body], threading the loop-carried state [s]. *)
Fixpoint for_each {A S : Type} (xs : list A) (body : A -> S -> result S)
         (s : S) : result S :=
  match xs with
  | [] => ret s
  | x :: xs' => bind (body x s) (for_each xs' body)
  end.

(** [range(start, stop)]: the integers [start, start+1, ..., stop-1]. *)
Definition range (start stop : Z) : list Z :=
  map (fun k => start + Z.of_nat k) (seq 0 (Z.to_nat (stop - start))).

(** [a // b]. *)
Definition floordiv (a b : Z) : Z := a / b.

(** [len(xs)]. *)
Definition len {A : Type} (xs : list A) : Z := Z.of_nat (List.length xs).

(** [xs[i]] on a list or tuple: a negative index counts from the end,
    an index outside [-len, len) raises [IndexError]. *)
Definition getitem {A : Type} (xs : list A) (i : Z) : result A :=
  let j := if i <? 0 then i + len xs else i in
  if j <? 0 then raise IndexError
  else match nth_error xs (Z.to_nat j) with
       | Some x => ret x
       | None => raise IndexError
       end.

(** [str(i)] / [f"{i}"] for an integer: decimal digits, [-] when negative. *)
Definition str_of_int (i : Z) : string := NilZero.string_of_int (Z.to_int i).

End Py.

Import Py.

Notation "x <- m ;; k" := (Py.bind m (fun x => k))
  (at level 61, m at next level, right associativity).

(* ================================================================= *)
(** ** numpy arrays of rank 3 and 2 *)

(** A rank-3 array as [sitk.GetArrayFromImage] returns it: its shape and
    its voxels, addressed by three indices. *)
Record ndarray3 (V : Type) : Type := mk_ndarray3 {
  extent0 : Z;
  extent1 : Z;
  extent2 : Z;
  voxel : Z -> Z -> Z -> V
}.
Arguments mk_ndarray3 {V}.
Arguments extent0 {V}.
Arguments extent1 {V}.
Arguments extent2 {V}.
Arguments voxel {V}.

(** A rank-2 array (one plane). *)
Record ndarray2 (V : Type) : Type := mk_ndarray2 {
  rows : Z;
  cols : Z;
  pixel : Z -> Z -> V
}.
Arguments mk_ndarray2 {V}.
Arguments rows {V}.
Arguments cols {V}.
Arguments pixel {V}.

Module Np.

(** [array.shape]. *)
Definition shape {V : Type} (a : ndarray3 V) : list Z :=
  [extent0 a; extent1 a; extent2 a].

(** An integer index [i] on an axis of extent [e]: numpy accepts
    [-e <= i < e] (negative indices wrap) and raises otherwise. *)
Definition axis_index (i e : Z) : result Z :=
  if (0 <=? i) && (i <? e) then ret i
  else if (- e <=? i) && (i <? 0) then ret (i + e)
  else raise IndexError.

(** [array[i, :, :]]. *)
Definition take0 {V : Type} (a : ndarray3 V) (i : Z) : result (ndarray2 V) :=
  j <- axis_index i (extent0 a) ;;
  ret (mk_ndarray2 (extent1 a) (extent2 a) (fun r c => voxel a j r c)).

(** [array[:, i, :]]. *)
Definition take1 {V : Type} (a : ndarray3 V) (i : Z) : result (ndarray2 V) :=
  j <- axis_index i (extent1 a) ;;
  ret (mk_ndarray2 (extent0 a) (extent2 a) (fun r c => voxel a r j c)).

(** [array[:, :, i]]. *)
Definition take2 {V : Type} (a : ndarray3 V) (i : Z) : result (ndarray2 V) :=
  j <- axis_index i (extent2 a) ;;
  ret (mk_ndarray2 (extent0 a) (extent1 a) (fun r c => voxel a r c j)).

End Np.

(* ================================================================= *)
(** ** Strings and [os.path] (POSIX flavour)

    [os.path.basename], [os.path.join] and [os.path.splitext] as
    [posixpath] defines them (separator [/], extension separator [.]). *)

Module Str.

(** [s[i]] for [0 <= i < len(s)], as an optional character. *)
Definition char_at (s : string) (i : Z) : option ascii :=
  if i <? 0 then None else String.get (Z.to_nat i) s.

Fixpoint drop (n : nat) (s : string) : string :=
  match n, s with
  | O, _ => s
  | S n', String _ s' => drop n' s'
  | S _, EmptyString => EmptyString
  end.

Fixpoint take (n : nat) (s : string) : string :=
  match n, s with
  | O, _ => EmptyString
  | S n', String c s' => String c (take n' s')
  | S _, EmptyString => EmptyString
  end.

(** Where a slice bound [i] falls in a string of length [n]. *)
Definition slice_bound (i : Z) (n : nat) : nat :=
  Z.to_nat (if i <? 0 then Z.max 0 (i + Z.of_nat n) else Z.min i (Z.of_nat n)).

(** [s[i:]]. *)
Definition slice_from (s : string) (i : Z) : string :=
  drop (slice_bound i (String.length s)) s.

(** [s[:i]]. *)
Definition slice_to (s : string) (i : Z) : string :=
  take (slice_bound i (String.length s)) s.

(** Index of the last occurrence of [c] in [s], counted from [base]
    for the first character; [-1] when [c] does not occur. *)
Fixpoint rfind_from (c : ascii) (s : string) (base : Z) : Z :=
  match s with
  | EmptyString => -1
  | String a s' =>
      let r := rfind_from c s' (base + 1) in
      if 0 <=? r then r else if Ascii.eqb a c then base else -1
  end.

(** [s.rfind(c)] for a one-character needle. *)
Definition rfind (c : ascii) (s : string) : Z := rfind_from c s 0.

(** [s.startswith(c)] and [s.endswith(c)] for a one-character needle. *)
Definition startswith (c : ascii) (s : string) : bool :=
  match s with
  | String a _ => Ascii.eqb a c
  | EmptyString => false
  end.

Fixpoint endswith (c : ascii) (s : string) : bool :=
  match s with
  | EmptyString => false
  | String a EmptyString => Ascii.eqb a c
  | String _ s' => endswith c s'
  end.

End Str.

Module Posixpath.

Local Open Scope string_scope.

Definition sep : ascii := "/"%char.
Definition extsep : ascii := "."%char.

(** [os.path.basename(p)]: [p[p.rfind('/') + 1:]]. *)
Definition basename (p : string) : string :=
  let i := Str.rfind sep p + 1 in
  Str.slice_from p i.

(** [os.path.join(a, b)]. *)
Definition join (a b : string) : string :=
  if Str.startswith sep b then b
  else if (String.eqb a "") || Str.endswith sep a then a ++ b
  else a ++ String sep b.

(** The loop of [genericpath._splitext] that skips the leading dots of
    the file name: it runs [filenameIndex] from [sepIndex + 1] up to
    [dotIndex], and reports whether it met a character other than a
    dot.  [steps] is the number of iterations left,
    [dotIndex - filenameIndex]. *)
Fixpoint has_stem (p : string) (filenameIndex : Z) (steps : nat) : bool :=
  match steps with
  | O => false
  | S steps' =>
      match Str.char_at p filenameIndex with
      | Some c =>
          if Ascii.eqb c extsep then has_stem p (filenameIndex + 1) steps'
          else true
      | None => true
      end
  end.

(** [os.path.splitext(p)]: the pair (root, ext). *)
Definition splitext (p : string) : string * string :=
  let sepIndex := Str.rfind sep p in
  let dotIndex := Str.rfind extsep p in
  if (sepIndex <? dotIndex)%Z
     && has_stem p (sepIndex + 1) (Z.to_nat (dotIndex - (sepIndex + 1)))
  then (Str.slice_to p dotIndex, Str.slice_from p dotIndex)
  else (p, "").

End Posixpath.

(* ================================================================= *)
(** ** Slice extraction: [extract_2d_slices] *)

Section Extract.

Local Open Scope string_scope.

(** Voxel type of the source array and pixel type of the written
    rasters. *)
Context {V U : Type}.

(** [cv2.normalize(slice_data, None, 0, 255, cv2.NORM_MINMAX,
    dtype=cv2.CV_8U)]: OpenCV's routine, taken as given. *)
Variable cv2_normalize : ndarray2 V -> ndarray2 U.

Definition views : list string := ["axial"; "coronal"; "sagittal"].

(** [[s//2 for s in array.shape]]. *)
Definition default_location (array : ndarray3 V) : list Z :=
  map (fun s => floordiv s 2) (Np.shape array).

(** [f"{view}_{i}"]. *)
Definition slice_name (view : string) (i : Z) : string :=
  view ++ "_" ++ str_of_int i.

(** The loop over the three views: the list [slices] of named planes,
    in the order in which they are appended.  [array.shape[k]] is the
    extent of axis [k]. *)
Definition collect_slices (array : ndarray3 V) (location : list Z) (n : Z)
  : result (list (string * ndarray2 V)) :=
  for_each views
    (fun view slices =>
       if String.eqb view "axial" then
         center <- getitem location 0 ;;
         let start := Z.max 0 (center - floordiv n 2) in
         let stop := Z.min (extent0 array) (center + floordiv n 2 + 1) in
         for_each (range start stop)
           (fun i slices =>
              plane <- Np.take0 array i ;;
              ret (slices ++ [(slice_name view i, plane)])%list)
           slices
       else if String.eqb view "coronal" then
         center <- getitem location 1 ;;
         let start := Z.max 0 (center - floordiv n 2) in
         let stop := Z.min (extent1 array) (center + floordiv n 2 + 1) in
         for_each (range start stop)
           (fun i slices =>
              plane <- Np.take1 array i ;;
              ret (slices ++ [(slice_name view i, plane)])%list)
           slices
       else if String.eqb view "sagittal" then
         center <- getitem location 2 ;;
         let start := Z.max 0 (center - floordiv n 2) in
         let stop := Z.min (extent2 array) (center + floordiv n 2 + 1) in
         for_each (range start stop)
           (fun i slices =>
              plane <- Np.take2 array i ;;
              ret (slices ++ [(slice_name view i, plane)])%list)
           slices
       else ret slices)
    [].

(** What one call leaves behind: the rasters handed to [cv2.imwrite],
    each with its path, and the returned list [output_files]. *)
Record extraction : Type := mk_extraction {
  written : list (string * ndarray2 U);
  output_files : list string
}.

(** [extract_2d_slices(image_path, location, n, output_path)], where
    [array] is the array read from [image_path]. *)
Definition extract_2d_slices (image_path : string) (array : ndarray3 V)
           (location : option (list Z)) (n : Z) (output_path : string)
  : result extraction :=
  let location :=
    match location with
    | None => default_location array
    | Some l => l
    end in
  slices <- collect_slices array location n ;;
  let base_name := fst (Posixpath.splitext (Posixpath.basename image_path)) in
  for_each slices
    (fun named out =>
       let '(name, slice_data) := named in
       let slice_data := cv2_normalize slice_data in
       let output_file :=
         Posixpath.join output_path (base_name ++ "_" ++ name ++ ".png") in
       ret (mk_extraction (written out ++ [(output_file, slice_data)])%list
                          (output_files out ++ [output_file])%list))
    (mk_extraction [] []).

End Extract.

(* ================================================================= *)
(** ** Resizing: [resize_image] *)

(** The float arithmetic [resize_image] uses: the quotient [a / b] of
    two integers with [b] nonzero (Python's true division, which returns
    the float nearest to the exact quotient), the product of two floats
    and the literal [1.0]. *)
Class Arith (F : Type) : Type := {
  quotient : Z -> Z -> F;
  mul : F -> F -> F;
  one : F
}.

Section Resize.

Local Open Scope string_scope.

Context {F : Type} `{Arith F}.

(** What [sitk.ReadImage] returns, as far as [resize_image] reads it.
    The tuples have one entry per image axis (the direction matrix one
    per pair of axes). *)
Record Image : Type := mk_Image {
  GetSize : list Z;
  GetSpacing : list F;
  GetDirection : list F;
  GetOrigin : list F;
  GetPixelID : Z
}.

(** [a / b] on two integers: true division, a float; a zero divisor
    raises. *)
Definition truediv (a b : Z) : result F :=
  if (b =? 0)%Z then raise ZeroDivisionError
  else ret (quotient a b).

(** [original_spacing[k] * (original_size[k] / new_size[k])], operands
    evaluated left to right. *)
Definition scaled_spacing (original_size : list Z) (original_spacing : list F)
           (new_size : list Z) (k : Z) : result F :=
  s <- getitem original_spacing k ;;
  a <- getitem original_size k ;;
  b <- getitem new_size k ;;
  q <- truediv a b ;;
  ret (mul s q).

(** The list display that computes [new_spacing]. *)
Definition new_spacing (original_size : list Z) (original_spacing : list F)
           (new_size : list Z) : result (list F) :=
  x0 <- scaled_spacing original_size original_spacing new_size 0 ;;
  x1 <- scaled_spacing original_size original_spacing new_size 1 ;;
  x2 <- (if (2 <? len new_size)%Z
         then scaled_spacing original_size original_spacing new_size 2
         else ret one) ;;
  ret [x0; x1; x2].

(** A value stored in the metadata dictionary: a tuple of integers or a
    tuple of floats. *)
Inductive pyvalue : Type :=
| IntTuple (xs : list Z)
| FloatTuple (xs : list F).

(** The arguments [resize_image] passes to [sitk.Resample], besides the
    image itself, the identity transform, the linear interpolator and
    the default pixel value [0.0]. *)
Record resample_call : Type := mk_resample_call {
  rs_size : list Z;
  rs_origin : list F;
  rs_spacing : list F;
  rs_direction : list F;
  rs_pixel_id : Z
}.

(** What a call that returns leaves behind: the resampling it
    requested, the dictionary given to [json.dump] (keys in insertion
    order), and the two paths it wrote to and returns. *)
Record resized : Type := mk_resized {
  resample : resample_call;
  metadata : list (string * pyvalue);
  output_image_path : string;
  output_meta_path : string
}.

(** The library calls [resize_image] makes, each of which may raise:
    [sitk.Resample] (which returns the resampled image),
    [sitk.WriteImage], and [open(path, 'w')] followed by [json.dump]. *)
Record Library : Type := mk_Library {
  Resampled : Type;
  sitk_Resample : Image -> resample_call -> result Resampled;
  sitk_WriteImage : Resampled -> string -> result unit;
  write_json : string -> list (string * pyvalue) -> result unit
}.

(** Lines 52-53: the output format when the caller may have left it
    out. *)
Definition resolve_output_format (image_path : string)
           (output_format : option string) : string :=
  match output_format with
  | None => Str.slice_from (snd (Posixpath.splitext image_path)) 1
  | Some f => f
  end.

(** [resize_image(image_path, new_size, output_path, output_format)],
    where [image] is the image read from [image_path] and [lib] the
    libraries it calls.  An exception ends the call where it is
    raised. *)
Definition resize_image (lib : Library) (image_path : string) (image : Image)
           (new_size : list Z) (output_path : string)
           (output_format : option string) : result resized :=
  let original_size := GetSize image in
  let original_spacing := GetSpacing image in
  spacing <- new_spacing original_size original_spacing new_size ;;
  let call :=
    mk_resample_call new_size (GetOrigin image) spacing
                     (GetDirection image) (GetPixelID image) in
  resized_image <- sitk_Resample lib image call ;;
  let metadata :=
    [("original_size", IntTuple original_size);
     ("original_spacing", FloatTuple original_spacing);
     ("original_direction", FloatTuple (GetDirection image));
     ("original_origin", FloatTuple (GetOrigin image))] in
  let output_format := resolve_output_format image_path output_format in
  let base_name := fst (Posixpath.splitext (Posixpath.basename image_path)) in
  let output_image_path :=
    Posixpath.join output_path (base_name ++ "_resized." ++ output_format) in
  let output_meta_path :=
    Posixpath.join output_path (base_name ++ "_resized_meta.json") in
  saved <- sitk_WriteImage lib resized_image output_image_path ;;
  dumped <- write_json lib output_meta_path metadata ;;
  ret (mk_resized call metadata output_image_path output_meta_path).

End Resize.

Arguments Image F : clear implicits.
Arguments pyvalue F : clear implicits.
Arguments resample_call F : clear implicits.
Arguments resized F : clear implicits.
Arguments Library F : clear implicits.

(** Binary64 arithmetic, which is what the program runs on. *)

(** An integer as an unrounded binary number [m * 2^0]. *)
Definition spec_of_int (z : Z) : spec_float :=
  match z with
  | Z0 => S754_zero false
  | Zpos m => S754_finite false m 0
  | Zneg m => S754_finite true m 0
  end.

(** [a / b] on two Python integers: the exact quotient rounded once, to
    nearest with ties to even (as [long_true_divide] does), whatever the
    size of [a] and [b].  An image size is below [2^32], so its quotient
    by a nonzero integer never exceeds the largest float, which is where
    Python would raise [OverflowError]. *)
Definition int_truediv (a b : Z) : float :=
  SF2Prim (SFdiv prec emax (spec_of_int a) (spec_of_int b)).

#[export] Instance binary64 : Arith float := {
  quotient := int_truediv;
  mul := PrimFloat.mul;
  one := 1%float
}.

(** The same operations on the rationals: no rounding. *)
#[export] Instance exact : Arith Q := {
  quotient := fun a b => (inject_Z a / inject_Z b)%Q;
  mul := Qmult;
  one := 1%Q
}.

(* ================================================================= *)
(** ** Derived notions used in the statements *)

(** The indices one view visits: [range(start, end)] with [start] and
    [end] as each branch of the loop computes them. *)
Definition window (center n extent : Z) : list Z :=
  range (Z.max 0 (center - floordiv n 2))
        (Z.min extent (center + floordiv n 2 + 1)).

(** The three planes through an in-range index, without wrap-around. *)
Definition plane0 {V : Type} (a : ndarray3 V) (i : Z) : ndarray2 V :=
  mk_ndarray2 (extent1 a) (extent2 a) (fun r c => voxel a i r c).
Definition plane1 {V : Type} (a : ndarray3 V) (i : Z) : ndarray2 V :=
  mk_ndarray2 (extent0 a) (extent2 a) (fun r c => voxel a r i c).
Definition plane2 {V : Type} (a : ndarray3 V) (i : Z) : ndarray2 V :=
  mk_ndarray2 (extent0 a) (extent1 a) (fun r c => voxel a r c i).

(** The named planes of one view, for the indices [w]. *)
Definition view_slices {V : Type} (view : string) (plane : Z -> ndarray2 V)
           (w : list Z) : list (string * ndarray2 V) :=
  map (fun i => (slice_name view i, plane i)) w.

(** How many indices of [w] lie strictly below, and strictly above, the
    center [c]. *)
Definition below (c : Z) (w : list Z) : nat :=
  List.length (filter (fun i => i <? c) w).
Definition above (c : Z) (w : list Z) : nat :=
  List.length (filter (fun i => c <? i) w).

(** [<base_name_without_extension>] of a source path. *)
Definition base_name_of (image_path : string) : string :=
  fst (Posixpath.splitext (Posixpath.basename image_path)).

(** The path of the raster written for the slice called [name]. *)
Definition png_path (output_path base_name name : string) : string :=
  Posixpath.join output_path (base_name ++ "_" ++ name ++ ".png")%string.

(** The slice [<view>_<i>] is among the files an extraction from
    [image_path] into [output_path] returned. *)
Definition writes_slice {U : Type} (files : @extraction U)
           (image_path output_path view : string) (i : Z) : Prop :=
  In (png_path output_path (base_name_of image_path) (slice_name view i))
     (output_files files).

(** A view that emits exactly the indices at distance at most [half]
    from the center [c]: as many below the center as above it. *)
Definition symmetric_about (emits : Z -> Prop) (c half : Z) : Prop :=
  forall i, emits i <-> c - half <= i <= c + half.

(** A view that emits the part of the interval [c - N//2, c + N//2] that
    lies on an axis of extent [e].  For a center outside the axis this is
    a piece that ends at the boundary slice ([e - 1] beyond the end, [0]
    before the start) when the interval reaches the axis, and nothing
    when it does not. *)
Definition clipped_to_axis (emits : Z -> Prop) (c n e : Z) : Prop :=
  (forall i, emits i <-> (c - n / 2 <= i <= c + n / 2 /\ 0 <= i <= e - 1)) /\
  (0 < e -> e <= c -> c - n / 2 <= e - 1 ->
   emits (e - 1) /\ forall i, emits i -> c - n / 2 <= i <= e - 1) /\
  (e <= c -> e - 1 < c - n / 2 -> forall i, ~ emits i) /\
  (0 < e -> c < 0 -> 0 <= c + n / 2 ->
   emits 0 /\ forall i, emits i -> 0 <= i <= c + n / 2) /\
  (c < 0 -> c + n / 2 < 0 -> forall i, ~ emits i).

(** Whether the character [c] occurs in [s]. *)
Fixpoint occurs (c : ascii) (s : string) : bool :=
  match s with
  | EmptyString => false
  | String a s' => Ascii.eqb a c || occurs c s'
  end.

(** Whether [s] consists of dots only. *)
Fixpoint all_dots (s : string) : bool :=
  match s with
  | EmptyString => true
  | String a s' => Ascii.eqb a "." && all_dots s'
  end.

(** [len(s)] as an integer. *)
Definition slen (s : string) : Z := Z.of_nat (String.length s).

(** A directory prefix: empty, or ending with the separator, so that what
    follows it is the file name. *)
Definition is_dir_prefix (dir : string) : bool :=
  String.eqb dir "" || Str.endswith "/" dir.

(** The reading the specification gives of the derived format: the part
    of a file name after its first dot (the empty string when it has no
    dot).  It is compared below with what [resolve_output_format]
    computes. *)
Fixpoint after_first_dot (s : string) : string :=
  match s with
  | EmptyString => EmptyString
  | String a s' => if Ascii.eqb a "." then s' else after_first_dot s'
  end.

(** A valid resize request, as the specification's data model has it: a
    target size of 2 or 3 positive integers, no longer than the image's
    size, for an image whose spacing has one entry per axis. *)
Definition valid_request {F : Type} (size : list Z) (spacing : list F)
           (new_size : list Z) : Prop :=
  (List.length new_size = 2%nat \/ List.length new_size = 3%nat) /\
  Forall (fun b => 0 < b) new_size /\
  (List.length new_size <= List.length size)%nat /\
  List.length spacing = List.length size.

(** [d[key]] on a dictionary kept as its list of items. *)
Fixpoint dict_get {A : Type} (key : string) (d : list (string * A)) : option A :=
  match d with
  | [] => None
  | (k, v) :: d' => if String.eqb k key then Some v else dict_get key d'
  end.

(** The names of the slices one call extracts from an array of extents
    [e0], [e1], [e2] around the first three entries of [location]. *)
Definition slice_names (e0 e1 e2 : Z) (location : list Z) (n : Z) : list string :=
  match location with
  | c0 :: c1 :: c2 :: _ =>
      map (slice_name "axial") (window c0 n e0)
      ++ map (slice_name "coronal") (window c1 n e1)
      ++ map (slice_name "sagittal") (window c2 n e2)
  | _ => []
  end.

(** How many axes [new_spacing] reads: three when the target size has
    more than two entries, two otherwise. *)
Definition axes_used (new_size : list Z) : nat :=
  if (2 <? len new_size)%Z then 3%nat else 2%nat.

(** The target size has at least two entries, and the image's size and
    spacing have an entry for every axis read. *)
Definition enough_axes {F : Type} (size : list Z) (spacing : list F)
           (new_size : list Z) : Prop :=
  (2 <= List.length new_size)%nat /\
  (axes_used new_size <= List.length size)%nat /\
  (axes_used new_size <= List.length spacing)%nat.

(** The arguments [resize_image] gives [sitk.Resample] once it has
    computed the spacing [spacing]. *)
Definition resample_request {F : Type} (image : Image F) (new_size : list Z)
           (spacing : list F) : resample_call F :=
  mk_resample_call new_size (GetOrigin image) spacing (GetDirection image)
                   (GetPixelID image).

(** The two paths of a resize, from its arguments. *)
Definition resized_image_path (image_path output_path : string)
           (output_format : option string) : string :=
  Posixpath.join output_path
    (base_name_of image_path ++ "_resized."
       ++ resolve_output_format image_path output_format)%string.

Definition resized_meta_path (image_path output_path : string) : string :=
  Posixpath.join output_path (base_name_of image_path ++ "_resized_meta.json")%string.

(** The dictionary of the sidecar of [image]. *)
Definition sidecar_of {F : Type} (image : Image F) : list (string * pyvalue F) :=
  [("original_size", IntTuple (GetSize image));
   ("original_spacing", FloatTuple (GetSpacing image));
   ("original_direction", FloatTuple (GetDirection image));
   ("original_origin", FloatTuple (GetOrigin image))]%string.

(** The steps of a call of [resize_image] that returns [r]: the spacing
    was computed, [sitk.Resample] returned an image for the request
    recorded in [r], [sitk.WriteImage] stored that image under the image
    path of [r], and the dictionary of [r] was dumped under its sidecar
    path. *)
Definition completed {F : Type} `{Arith F} (lib : Library F) (image : Image F)
           (new_size : list Z) (r : resized F) : Prop :=
  exists spacing resized_image,
    new_spacing (GetSize image) (GetSpacing image) new_size = inr spacing /\
    resample r = resample_request image new_size spacing /\
    sitk_Resample lib image (resample r) = inr resized_image /\
    sitk_WriteImage lib resized_image (output_image_path r) = inr tt /\
    write_json lib (output_meta_path r) (metadata r) = inr tt.

(** A library none of whose calls raises. *)
Definition library_returns {F : Type} (lib : Library F) : Prop :=
  (forall image call, exists resized_image,
      sitk_Resample lib image call = inr resized_image) /\
  (forall resized_image path, sitk_WriteImage lib resized_image path = inr tt) /\
  (forall path d, write_json lib path d = inr tt).

(* ================================================================= *)
(** ** The command dispatcher: [main] *)

(** [s.endswith(suffix)]. *)
Definition ends_with (suffix s : string) : bool :=
  let n := String.length s in
  let m := String.length suffix in
  if (m <=? n)%nat then String.eqb (Str.drop (n - m) s) suffix else false.

(** The suffixes folder mode accepts. *)
Definition image_suffixes : list string :=
  [".nii"; ".nii.gz"; ".mha"; ".mhd"]%string.

(** [filename.endswith(('.nii', '.nii.gz', '.mha', '.mhd'))]. *)
Definition is_image_file (filename : string) : bool :=
  existsb (fun suffix => ends_with suffix filename) image_suffixes.

(** Truth value of an optional string: [None] and the empty string are
    false. *)
Definition truthy (s : option string) : bool :=
  match s with
  | Some (String _ _) => true
  | _ => false
  end.

(** What can stop [main]: an exception of the per-file operation, the
    [TypeError] of [os.path.join] on [None], or an error raised by the
    file system or the imaging library. *)
Inductive failure : Set :=
| Raised (e : exn)
| TypeError
| EnvError.

(** The namespace [parser.parse_args()] returns.  [argparse] makes
    [command] one of [resize] and [extract2D], and sets exactly one of
    [imagePath] and [folderPath]; the fields of the other subcommand are
    not read. *)
Record Namespace : Type := mk_Namespace {
  args_command : string;
  args_imagePath : option string;
  args_folderPath : option string;
  args_newSize : list Z;
  args_outputPath : string;
  args_outputFormat : option string;
  args_location : option (list Z);
  args_N : Z
}.

Section Main.

Local Open Scope string_scope.

Context {F : Type} `{Arith F} {V U : Type}.

(** The environment: [os.listdir] ([None] lists the current directory),
    the libraries [resize_image] calls, [sitk.ReadImage],
    [sitk.GetArrayFromImage] of the image read, and [cv2.normalize]. *)
Variable listdir : option string -> failure + list string.
Variable lib : Library F.
Variable ReadImage : string -> failure + Image F.
Variable ReadArray : string -> failure + ndarray3 V.
Variable cv2_normalize : ndarray2 V -> ndarray2 U.

(** What one per-file call leaves behind. *)
Inductive outcome : Type :=
| Resized (r : resized F)
| Extracted (e : @extraction U).

(** What a run leaves behind, call after call, and the exception that
    ended it, if any. *)
Definition trace : Type := (list outcome * option failure)%type.

(** [resize_image(image_path, args.newSize, args.outputPath,
    args.outputFormat)], the image being read first. *)
Definition run_resize (args : Namespace) (image_path : string)
  : failure + outcome :=
  match ReadImage image_path with
  | inl e => inl e
  | inr image =>
      match resize_image lib image_path image (args_newSize args)
                         (args_outputPath args) (args_outputFormat args) with
      | inl e => inl (Raised e)
      | inr r => inr (Resized r)
      end
  end.

(** [extract_2d_slices(image_path, args.location, args.N,
    args.outputPath)], the array being read first. *)
Definition run_extract (args : Namespace) (image_path : string)
  : failure + outcome :=
  match ReadArray image_path with
  | inl e => inl e
  | inr array =>
      match extract_2d_slices cv2_normalize image_path array
                              (args_location args) (args_N args)
                              (args_outputPath args) with
      | inl e => inl (Raised e)
      | inr e => inr (Extracted e)
      end
  end.

(** [os.path.join(args.folderPath, filename)]. *)
Definition join_folder (folder : option string) (filename : string)
  : failure + string :=
  match folder with
  | None => inl TypeError
  | Some d => inr (Posixpath.join d filename)
  end.

(** The loop over a directory listing: every accepted file is joined to
    the folder and handed to [op]; an exception ends the loop, what the
    earlier calls did stays. *)
Fixpoint for_files (op : string -> failure + outcome) (folder : option string)
         (listing : list string) : trace :=
  match listing with
  | [] => ([], None)
  | filename :: rest =>
      if is_image_file filename then
        match join_folder folder filename with
        | inl e => ([], Some e)
        | inr path =>
            match op path with
            | inl e => ([], Some e)
            | inr o =>
                let (done, err) := for_files op folder rest in
                (o :: done, err)
            end
        end
      else for_files op folder rest
  end.

(** One subcommand: the single file when [args.imagePath] is true, the
    folder otherwise. *)
Definition run (op : string -> failure + outcome) (args : Namespace) : trace :=
  if truthy (args_imagePath args) then
    match args_imagePath args with
    | Some p =>
        match op p with
        | inl e => ([], Some e)
        | inr o => ([o], None)
        end
    | None => ([], None)
    end
  else
    match listdir (args_folderPath args) with
    | inl e => ([], Some e)
    | inr listing => for_files op (args_folderPath args) listing
    end.

(** [main()], from the parsed arguments on. *)
Definition main (args : Namespace) : trace :=
  if String.eqb (args_command args) "resize" then
    run (run_resize args) args
  else if String.eqb (args_command args) "extract2D" then
    run (run_extract args) args
  else ([], None).

End Main.

Arguments outcome F U : clear implicits.
Arguments trace F U : clear implicits.

(** The per-file operation of the subcommand [args.command]. *)
Definition per_file {F : Type} `{Arith F} {V U : Type} (lib : Library F)
           (ReadImage : string -> failure + Image F)
           (ReadArray : string -> failure + ndarray3 V)
           (cv2_normalize : ndarray2 V -> ndarray2 U) (args : Namespace)
  : string -> failure + outcome F U :=
  if String.eqb (args_command args) "resize" then run_resize lib ReadImage args
  else run_extract ReadArray cv2_normalize args.

(* ================================================================= *)
(** ** Min-max normalisation

    [cv2.normalize] is OpenCV's code, not this repository's.  What the
    call [cv2.normalize(slice_data, None, 0, 255, cv2.NORM_MINMAX,
    dtype=cv2.CV_8U)] is meant to do is taken from the specification. *)

(** The pixels of a plane, row by row. *)
Definition pixels {V : Type} (p : ndarray2 V) : list V :=
  flat_map (fun r => map (pixel p r) (range 0 (cols p))) (range 0 (rows p)).

(** The position [(r, c)] lies on the plane. *)
Definition on_plane {V : Type} (p : ndarray2 V) (r c : Z) : Prop :=
  0 <= r < rows p /\ 0 <= c < cols p.

(** The observed minimum and maximum of a non-empty list of
    intensities. *)
Definition observed_min (x : Q) (xs : list Q) : Q := fold_right Qmin x xs.
Definition observed_max (x : Q) (xs : list Q) : Q := fold_right Qmax x xs.

(** Quantisation to 8 bits, unsigned: the nearest integer, kept within
    [0, 255]. *)
Definition quantize (x : Q) : Z := Z.max 0 (Z.min 255 (Qfloor (x + (1 # 2))%Q)).

(** Modelled from the spec: "Normalize each plane's intensity range to
    [0, 255] (min-max normalization) and quantize to 8-bit unsigned",
    min-max normalisation being the "linear remapping of a value range
    to [0,255] using the observed minimum and maximum".  An intensity
    [v] is sent to [(v - lo) * 255 / (hi - lo)], then quantised.  On a
    constant plane ([hi = lo]) the remapping has no slope; the scale is
    then 0, which is also what OpenCV takes. *)
Definition minmax_normalize (p : ndarray2 Q) : ndarray2 Z :=
  match pixels p with
  | [] => mk_ndarray2 (rows p) (cols p) (fun _ _ => 0)
  | x :: xs =>
      let lo := observed_min x xs in
      let hi := observed_max x xs in
      let scale := if Qeq_bool hi lo then 0%Q else (255 / (hi - lo))%Q in
      mk_ndarray2 (rows p) (cols p)
                  (fun r c => quantize ((pixel p r c - lo) * scale)%Q)
  end.

(** An array of rank 3 all of whose voxels hold [v]. *)
Definition constant_array {V : Type} (e0 e1 e2 : Z) (v : V) : ndarray3 V :=
  mk_ndarray3 e0 e1 e2 (fun _ _ _ => v).

(* ================================================================= *)
(** ** Libraries for the examples *)

(** A library that checks what SimpleITK checks before it resamples or
    writes: the target size must have one entry per image axis, and the
    file name must end with the extension of an image format.  The
    resampled image is represented by the request that produced it. *)
Definition checking_library {F : Type} : Library F :=
  mk_Library (resample_call F)
    (fun image call =>
       if (List.length (rs_size call) =? List.length (GetSize image))%nat
       then ret call else raise LibraryError)
    (fun _ path => if is_image_file path then ret tt else raise LibraryError)
    (fun _ _ => ret tt).

(** A library that accepts every call. *)
Definition permissive_library {F : Type} : Library F :=
  mk_Library unit (fun _ _ => ret tt) (fun _ _ => ret tt) (fun _ _ => ret tt).

(* ================================================================= *)
(** ** Lemmas on the Python primitives *)

Lemma range_nil (a b : Z) : b <= a -> range a b = [].
Proof.
  intros Hle. unfold range.
  replace (Z.to_nat (b - a)) with 0%nat by lia. reflexivity.
Qed.

Lemma range_cons (a b : Z) : a < b -> range a b = a :: range (a + 1) b.
Proof.
  intros Hlt. unfold range.
  replace (Z.to_nat (b - a)) with (S (Z.to_nat (b - (a + 1)))) by lia.
  cbn [seq map]. f_equal; [lia|].
  rewrite <- seq_shift, map_map.
  apply map_ext. intros k. lia.
Qed.

Lemma range_length (a b : Z) : List.length (range a b) = Z.to_nat (b - a).
Proof. unfold range. now rewrite length_map, length_seq. Qed.

Lemma range_In (a b i : Z) : In i (range a b) <-> a <= i < b.
Proof.
  unfold range. rewrite in_map_iff. split.
  - intros (k & <- & Hk). apply in_seq in Hk. lia.
  - intros Hi. exists (Z.to_nat (i - a)). split; [lia|].
    apply in_seq. lia.
Qed.

Lemma range_NoDup (a b : Z) : NoDup (range a b).
Proof.
  unfold range. apply NoDup_map_inv with (f := fun z => Z.to_nat (z - a)).
  rewrite map_map.
  rewrite map_ext with (g := fun k => k) by (intros k; lia).
  rewrite map_id. apply seq_NoDup.
Qed.

(** Induction along a range, from its first element. *)
Lemma range_ind (P : Z -> Z -> Prop) :
  (forall a b, b <= a -> P a b) ->
  (forall a b, a < b -> P (a + 1) b -> P a b) ->
  forall a b, P a b.
Proof.
  intros Hnil Hcons a b.
  remember (Z.to_nat (b - a)) as k eqn:Hk.
  revert a Hk. induction k as [|k IH]; intros a Hk.
  - apply Hnil. lia.
  - apply Hcons; [lia|]. apply IH. lia.
Qed.

Lemma below_range (c a b : Z) :
  below c (range a b) = Z.to_nat (Z.min b c - a).
Proof.
  unfold below. revert c. pattern a, b. apply range_ind; clear a b.
  - intros a b Hle c. rewrite range_nil by assumption. cbn. lia.
  - intros a b Hlt IH c. rewrite range_cons by assumption. cbn [filter].
    destruct (Z.ltb_spec a c); cbn [List.length]; rewrite IH; lia.
Qed.

Lemma above_range (c a b : Z) :
  above c (range a b) = Z.to_nat (b - Z.max a (c + 1)).
Proof.
  unfold above. revert c. pattern a, b. apply range_ind; clear a b.
  - intros a b Hle c. rewrite range_nil by assumption. cbn. lia.
  - intros a b Hlt IH c. rewrite range_cons by assumption. cbn [filter].
    destruct (Z.ltb_spec c a); cbn [List.length]; rewrite IH; lia.
Qed.

(** A loop that appends one item per element never fails when fetching
    the item never does, and appends the items in order. *)
Lemma for_each_append {A P B : Type} (fetch : A -> result P) (val : A -> P)
      (item : A -> P -> B) (xs : list A) (acc : list B) :
  Forall (fun x => fetch x = inr (val x)) xs ->
  for_each xs (fun x acc => p <- fetch x ;; ret (acc ++ [item x p])) acc
  = inr (acc ++ map (fun x => item x (val x)) xs).
Proof.
  intros Hall. revert acc.
  induction Hall as [|x xs Hx _ IH]; intros acc; cbn [for_each map].
  - now rewrite app_nil_r.
  - rewrite Hx. cbn [bind ret]. rewrite IH, <- app_assoc. reflexivity.
Qed.

Lemma axis_index_in_bounds (i e : Z) :
  0 <= i < e -> Np.axis_index i e = inr i.
Proof.
  intros Hi. unfold Np.axis_index.
  destruct (Z.leb_spec 0 i), (Z.ltb_spec i e); try lia. reflexivity.
Qed.

(* ================================================================= *)
(** ** Lemmas on the view windows *)

Lemma window_In (c n e i : Z) :
  In i (window c n e) <-> (c - n / 2 <= i <= c + n / 2 /\ 0 <= i <= e - 1).
Proof. unfold window, floordiv. rewrite range_In. lia. Qed.

Lemma window_in_bounds (c n e : Z) :
  Forall (fun i => 0 <= i < e) (window c n e).
Proof. apply Forall_forall. intros i Hi. apply window_In in Hi. lia. Qed.

Lemma window_length (c n e : Z) :
  List.length (window c n e)
  = Z.to_nat (Z.min e (c + n / 2 + 1) - Z.max 0 (c - n / 2)).
Proof. unfold window, floordiv. apply range_length. Qed.

Lemma window_empty (c n e : Z) :
  Z.min e (c + n / 2 + 1) <= Z.max 0 (c - n / 2) -> window c n e = [].
Proof. intros Hle. unfold window, floordiv. now apply range_nil. Qed.

Lemma window_below (c n e : Z) :
  0 <= n -> 0 <= c < e ->
  below c (window c n e) = Z.to_nat (Z.min c (n / 2)).
Proof.
  intros Hn Hc. unfold window, floordiv. rewrite below_range.
  assert (0 <= n / 2) by (apply Z.div_pos; lia). lia.
Qed.

Lemma window_above (c n e : Z) :
  0 <= n -> 0 <= c < e ->
  above c (window c n e) = Z.to_nat (Z.min (e - 1 - c) (n / 2)).
Proof.
  intros Hn Hc. unfold window, floordiv. rewrite above_range.
  assert (0 <= n / 2) by (apply Z.div_pos; lia). lia.
Qed.

(** For a count [n >= 0] a window holds at most [2 * (n // 2) + 1]
    indices. *)
Lemma window_length_le (c n e : Z) :
  0 <= n -> Z.of_nat (List.length (window c n e)) <= 2 * (n / 2) + 1.
Proof.
  intros Hn. rewrite window_length.
  assert (0 <= n / 2) by (apply Z.div_pos; lia). lia.
Qed.

Lemma odd_half (n : Z) : Z.odd n = true -> 2 * (n / 2) + 1 = n.
Proof.
  intros Hodd. rewrite (Z.div_mod n 2) at 2 by lia.
  rewrite <- Z.bit0_mod, Z.bit0_odd, Hodd. reflexivity.
Qed.

Lemma even_half (n : Z) : Z.even n = true -> 2 * (n / 2) = n.
Proof.
  intros Heven. rewrite (Z.div_mod n 2) at 2 by lia.
  rewrite <- Z.bit0_mod, Z.bit0_odd, <- Z.negb_even, Heven. cbn. lia.
Qed.

(* ================================================================= *)
(** ** Lemmas on the extraction loops *)

Lemma take0_in_bounds {V : Type} (a : ndarray3 V) (i : Z) :
  0 <= i < extent0 a -> Np.take0 a i = inr (plane0 a i).
Proof. intros Hi. unfold Np.take0. now rewrite axis_index_in_bounds. Qed.

Lemma take1_in_bounds {V : Type} (a : ndarray3 V) (i : Z) :
  0 <= i < extent1 a -> Np.take1 a i = inr (plane1 a i).
Proof. intros Hi. unfold Np.take1. now rewrite axis_index_in_bounds. Qed.

Lemma take2_in_bounds {V : Type} (a : ndarray3 V) (i : Z) :
  0 <= i < extent2 a -> Np.take2 a i = inr (plane2 a i).
Proof. intros Hi. unfold Np.take2. now rewrite axis_index_in_bounds. Qed.

(** Decide the string comparisons between literals in the goal. *)
Ltac decide_literals :=
  repeat match goal with
         | |- context [String.eqb ?a ?b] =>
             let v := eval vm_compute in (String.eqb a b) in
             change (String.eqb a b) with v
         end;
  cbv iota.

(** The first loop, for a location with (at least) three entries: it
    never raises, and appends the planes of the three windows, view by
    view and in increasing index order. *)
Lemma collect_slices_views {V : Type} (array : ndarray3 V)
      (c0 c1 c2 : Z) (rest : list Z) (n : Z) :
  collect_slices array (c0 :: c1 :: c2 :: rest) n
  = inr (view_slices "axial" (plane0 array) (window c0 n (extent0 array))
         ++ view_slices "coronal" (plane1 array) (window c1 n (extent1 array))
         ++ view_slices "sagittal" (plane2 array) (window c2 n (extent2 array))).
Proof.
  unfold collect_slices, views. cbn [for_each]. decide_literals.
  change (getitem (c0 :: c1 :: c2 :: rest) 0) with (@inr exn Z c0).
  change (getitem (c0 :: c1 :: c2 :: rest) 1) with (@inr exn Z c1).
  change (getitem (c0 :: c1 :: c2 :: rest) 2) with (@inr exn Z c2).
  cbn [bind].
  fold (window c0 n (extent0 array)) (window c1 n (extent1 array))
       (window c2 n (extent2 array)).
  rewrite (for_each_append (Np.take0 array) (plane0 array)
             (fun i p => (slice_name "axial" i, p))).
  2:{ eapply Forall_impl; [|apply window_in_bounds].
      intros i Hi. now apply take0_in_bounds. }
  cbn [bind].
  rewrite (for_each_append (Np.take1 array) (plane1 array)
             (fun i p => (slice_name "coronal" i, p))).
  2:{ eapply Forall_impl; [|apply window_in_bounds].
      intros i Hi. now apply take1_in_bounds. }
  cbn [bind].
  rewrite (for_each_append (Np.take2 array) (plane2 array)
             (fun i p => (slice_name "sagittal" i, p))).
  2:{ eapply Forall_impl; [|apply window_in_bounds].
      intros i Hi. now apply take2_in_bounds. }
  cbn [bind ret app]. now rewrite <- app_assoc.
Qed.

(** The second loop: one raster per slice, in order. *)
Lemma write_loop {V U : Type} (norm : ndarray2 V -> ndarray2 U)
      (out base : string) (slices : list (string * ndarray2 V))
      (acc : extraction) :
  for_each slices
    (fun named o =>
       let '(name, slice_data) := named in
       let slice_data := norm slice_data in
       let output_file :=
         Posixpath.join out (base ++ "_" ++ name ++ ".png")%string in
       ret (mk_extraction (written o ++ [(output_file, slice_data)])
                          (output_files o ++ [output_file])))
    acc
  = inr (mk_extraction
           (written acc
            ++ map (fun named => (png_path out base (fst named), norm (snd named)))
                   slices)
           (output_files acc
            ++ map (fun named => png_path out base (fst named)) slices)).
Proof.
  revert acc. induction slices as [|[name plane] slices IH]; intros acc.
  - cbn. rewrite !app_nil_r. now destruct acc.
  - cbn [for_each bind ret]. rewrite IH. cbn [written output_files map fst snd].
    rewrite <- !app_assoc. reflexivity.
Qed.

(** The whole operation for a location with three entries. *)
Lemma extract_2d_slices_views {V U : Type} (norm : ndarray2 V -> ndarray2 U)
      (path : string) (array : ndarray3 V) (c0 c1 c2 : Z) (rest : list Z)
      (n : Z) (out : string) :
  let slices :=
    view_slices "axial" (plane0 array) (window c0 n (extent0 array))
    ++ view_slices "coronal" (plane1 array) (window c1 n (extent1 array))
    ++ view_slices "sagittal" (plane2 array) (window c2 n (extent2 array)) in
  extract_2d_slices norm path array (Some (c0 :: c1 :: c2 :: rest)) n out
  = inr (mk_extraction
           (map (fun named =>
                   (png_path out (base_name_of path) (fst named), norm (snd named)))
                slices)
           (map (fun named => png_path out (base_name_of path) (fst named))
                slices)).
Proof.
  intros slices. unfold extract_2d_slices.
  rewrite collect_slices_views. fold slices. cbn [bind].
  rewrite (write_loop norm out). reflexivity.
Qed.

Lemma view_slices_names {V : Type} (view : string) (plane : Z -> ndarray2 V)
      (w : list Z) :
  map fst (view_slices view plane w)
  = map (fun i => (view ++ "_" ++ str_of_int i)%string) w.
Proof. unfold view_slices. rewrite map_map. reflexivity. Qed.

Lemma view_slices_planes {V : Type} (view : string) (plane : Z -> ndarray2 V)
      (w : list Z) :
  map snd (view_slices view plane w) = map plane w.
Proof. unfold view_slices. rewrite map_map. reflexivity. Qed.

Lemma view_slices_length {V : Type} (view : string) (plane : Z -> ndarray2 V)
      (w : list Z) :
  List.length (view_slices view plane w) = List.length w.
Proof. unfold view_slices. apply length_map. Qed.

(* ================================================================= *)
(** ** Properties of slice extraction *)

(** C10.  For every rank-3 array, every integer center triple and every
    integer slice count, each index the loops use on an axis lies in
    [0, extent): the operation therefore never raises on indexing, each
    view contributes exactly the planes of its window (no index is taken
    from the end of an axis), and a view whose clipped window is empty
    ([end <= start]) contributes no slice. *)
Theorem C10_slice_indices_in_bounds :
  forall (V : Type) (array : ndarray3 V) (c0 c1 c2 n : Z),
    Forall (fun i => 0 <= i < extent0 array) (window c0 n (extent0 array)) /\
    Forall (fun i => 0 <= i < extent1 array) (window c1 n (extent1 array)) /\
    Forall (fun i => 0 <= i < extent2 array) (window c2 n (extent2 array)) /\
    collect_slices array [c0; c1; c2] n
    = inr (view_slices "axial" (plane0 array) (window c0 n (extent0 array))
           ++ view_slices "coronal" (plane1 array) (window c1 n (extent1 array))
           ++ view_slices "sagittal" (plane2 array) (window c2 n (extent2 array))) /\
    (forall (plane : Z -> ndarray2 V) (view : string) (c e : Z),
        Z.min e (c + n / 2 + 1) <= Z.max 0 (c - n / 2) ->
        view_slices view plane (window c n e) = []).
Proof.
  intros V array c0 c1 c2 n.
  repeat split; try apply window_in_bounds.
  - apply collect_slices_views.
  - intros plane view c e Hempty. now rewrite window_empty.
Qed.

(** A view whose center lies far beyond the axis has an empty window. *)
Lemma C10_slice_indices_in_bounds_witness :
  view_slices "axial" (plane0 (mk_ndarray3 10 10 10 (fun i j k => i + j + k)))
              (window 100 1 10) = [].
Proof.
  apply (proj2 (proj2 (proj2 (proj2
    (C10_slice_indices_in_bounds Z (mk_ndarray3 10 10 10 (fun i j k => i + j + k))
                                 100 5 5 1))))).
  vm_compute. discriminate.
Defined.

(** C5.  The indices a view extracts are exactly the integers of
    [c - N//2, c + N//2] that lie in [0, e - 1], each once; the slices
    are named [<view>_<index>] and hold the plane at that index; with
    center 0 and [N = 3] the window of a non-empty axis contains 0 and
    nothing negative; a single-voxel axis with the default center yields
    exactly the slice 0 for every count [N >= 0]. *)
Theorem C5_window_is_clipped_interval :
  (forall c n e i : Z,
      In i (window c n e) <-> (c - n / 2 <= i <= c + n / 2 /\ 0 <= i <= e - 1)) /\
  (forall c n e : Z, NoDup (window c n e)) /\
  (forall (V : Type) (array : ndarray3 V) (c0 c1 c2 n : Z),
      exists slices,
        collect_slices array [c0; c1; c2] n = inr slices /\
        map fst slices
        = (map (fun i => "axial_" ++ str_of_int i)%string (window c0 n (extent0 array))
           ++ map (fun i => "coronal_" ++ str_of_int i)%string (window c1 n (extent1 array))
           ++ map (fun i => "sagittal_" ++ str_of_int i)%string (window c2 n (extent2 array))) /\
        map snd slices
        = (map (plane0 array) (window c0 n (extent0 array))
           ++ map (plane1 array) (window c1 n (extent1 array))
           ++ map (plane2 array) (window c2 n (extent2 array)))) /\
  (forall e : Z, 0 < e ->
      In 0 (window 0 3 e) /\ Forall (fun i => 0 <= i) (window 0 3 e)) /\
  (forall n : Z, 0 <= n -> window (floordiv 1 2) n 1 = [0]).
Proof.
  split; [exact window_In|].
  split; [intros c n e; apply range_NoDup|].
  split; [|split].
  - intros V array c0 c1 c2 n. eexists. split; [apply collect_slices_views|].
    rewrite !map_app, !view_slices_names, !view_slices_planes. split; reflexivity.
  - intros e He. split.
    + apply window_In. change (3 / 2) with 1. lia.
    + eapply Forall_impl; [|apply window_in_bounds]. cbn beta. intros i Hi. lia.
  - intros n Hn. unfold window, floordiv. change (1 / 2) with 0.
    assert (0 <= n / 2) by (apply Z.div_pos; lia).
    replace (Z.max 0 (0 - n / 2)) with 0 by lia.
    replace (Z.min 1 (0 + n / 2 + 1)) with 1 by lia.
    reflexivity.
Qed.

(** With center 0 and [N = 3] an axis of extent 10 is visited from index
    0, and a single-voxel axis yields one slice for [N = 4]. *)
Lemma C5_window_is_clipped_interval_witness :
  (In 0 (window 0 3 10) /\ Forall (fun i => 0 <= i) (window 0 3 10)) /\
  window (floordiv 1 2) 4 1 = [0].
Proof.
  split.
  - apply (proj1 (proj2 (proj2 (proj2 C5_window_is_clipped_interval))) 10). lia.
  - apply (proj2 (proj2 (proj2 (proj2 C5_window_is_clipped_interval))) 4). lia.
Defined.


(** C2, evaluated where it fails: for a (10,10,10) array, the default
    center and [N = 2], every view yields the three slices 4, 5 and 6, so
    nine files are written where the bound [3 * N] allows six. *)
Theorem C2_even_count_exceeds_bound :
  forall (V U : Type) (norm : ndarray2 V -> ndarray2 U) (path out : string)
         (vox : Z -> Z -> Z -> V),
    exists files,
      extract_2d_slices norm path (mk_ndarray3 10 10 10 vox) None 2 out
      = inr files /\
      output_files files
      = map (png_path out (base_name_of path))
            ["axial_4"; "axial_5"; "axial_6";
             "coronal_4"; "coronal_5"; "coronal_6";
             "sagittal_4"; "sagittal_5"; "sagittal_6"]%string /\
      Z.of_nat (List.length (output_files files)) = 9 /\
      3 * 2 < Z.of_nat (List.length (output_files files)).
Proof.
  intros V U norm path out vox. eexists. split.
  - change (extract_2d_slices norm path (mk_ndarray3 10 10 10 vox) None 2 out)
      with (extract_2d_slices norm path (mk_ndarray3 10 10 10 vox)
                              (Some [5; 5; 5]) 2 out).
    apply extract_2d_slices_views.
  - repeat split.
Qed.

(** C4, as stated, fails: with center 100 on an axis of extent 10 and
    [N = 1] the axial view emits nothing at all; only the two other views
    produce a slice. *)
Lemma C4_far_center_emits_nothing :
  window 100 1 10 = [] /\
  exists slices,
    collect_slices (mk_ndarray3 10 10 10 (fun i j k => i + j + k)) [100; 5; 5] 1
    = inr slices /\
    map fst slices = ["coronal_5"; "sagittal_5"]%string.
Proof.
  split; [reflexivity|]. eexists. split; [apply collect_slices_views|].
  reflexivity.
Qed.

(** For an odd slice count [N >= 1] every view yields at most [N] slices
    and the operation writes at most [3 * N] files. *)
Theorem odd_count_bound :
  forall (V U : Type) (norm : ndarray2 V -> ndarray2 U) (path out : string)
         (array : ndarray3 V) (c0 c1 c2 n : Z),
    0 <= n -> Z.odd n = true ->
    Z.of_nat (List.length (window c0 n (extent0 array))) <= n /\
    Z.of_nat (List.length (window c1 n (extent1 array))) <= n /\
    Z.of_nat (List.length (window c2 n (extent2 array))) <= n /\
    exists files,
      extract_2d_slices norm path array (Some [c0; c1; c2]) n out = inr files /\
      Z.of_nat (List.length (output_files files)) <= 3 * n.
Proof.
  intros V U norm path out array c0 c1 c2 n Hn Hodd.
  pose proof (window_length_le c0 n (extent0 array) Hn) as H0.
  pose proof (window_length_le c1 n (extent1 array) Hn) as H1.
  pose proof (window_length_le c2 n (extent2 array) Hn) as H2.
  rewrite (odd_half n Hodd) in H0, H1, H2.
  repeat split; try assumption.
  eexists. split; [apply extract_2d_slices_views|].
  cbn [output_files]. rewrite length_map, !length_app, !view_slices_length. lia.
Qed.

Lemma odd_count_bound_witness :
  exists files,
    extract_2d_slices (fun p : ndarray2 Z => p) "scan.nii"
      (mk_ndarray3 10 10 10 (fun i j k => i + j + k)) (Some [0; 5; 9]) 3 "out"
    = inr files /\
    Z.of_nat (List.length (output_files files)) <= 3 * 3.
Proof.
  apply (proj2 (proj2 (proj2
    (odd_count_bound Z Z (fun p => p) "scan.nii" "out"
       (mk_ndarray3 10 10 10 (fun i j k => i + j + k)) 0 5 9 3
       ltac:(lia) ltac:(reflexivity))))).
Defined.

(* ================================================================= *)
(** ** Lemmas on strings and paths *)

Section StrLemmas.
Local Open Scope string_scope.

Lemma string_app_assoc (a b c : string) : (a ++ b) ++ c = a ++ (b ++ c).
Proof. induction a as [|x a IH]; cbn; [reflexivity | now rewrite IH]. Qed.

Lemma string_app_length (a b : string) :
  String.length (a ++ b) = (String.length a + String.length b)%nat.
Proof. induction a as [|x a IH]; cbn; [reflexivity | now rewrite IH]. Qed.

Lemma occurs_app (c : ascii) (a b : string) :
  occurs c (a ++ b) = occurs c a || occurs c b.
Proof.
  induction a as [|x a IH]; cbn; [reflexivity|].
  now rewrite IH, orb_assoc.
Qed.

Lemma rfind_from_absent (c : ascii) (s : string) (base : Z) :
  occurs c s = false -> Str.rfind_from c s base = -1.
Proof.
  revert base. induction s as [|x s IH]; intros base Habs; cbn in *.
  - reflexivity.
  - apply orb_false_iff in Habs as [Hx Hs].
    rewrite (IH _ Hs), Hx. reflexivity.
Qed.

Lemma rfind_from_app_absent (c : ascii) (a b : string) (base : Z) :
  occurs c b = false ->
  Str.rfind_from c (a ++ b) base = Str.rfind_from c a base.
Proof.
  intros Habs. revert base. induction a as [|x a IH]; intros base; cbn.
  - now apply rfind_from_absent.
  - now rewrite IH.
Qed.

Lemma rfind_from_range (c : ascii) (s : string) (base : Z) :
  0 <= base ->
  Str.rfind_from c s base = -1 \/
  base <= Str.rfind_from c s base < base + slen s.
Proof.
  unfold slen. revert base. induction s as [|x s IH]; intros base Hbase.
  - now left.
  - cbn [Str.rfind_from String.length].
    destruct (IH (base + 1) ltac:(lia)) as [-> | Hr].
    + cbn. destruct (Ascii.eqb x c); [right|left]; lia.
    + destruct (Z.leb_spec 0 (Str.rfind_from c s (base + 1))); [right|]; lia.
Qed.

Lemma rfind_from_last (c : ascii) (a b : string) (base : Z) :
  0 <= base -> occurs c b = false ->
  Str.rfind_from c (a ++ String c b) base = base + slen a.
Proof.
  unfold slen. intros Hbase Habs. revert base Hbase.
  induction a as [|x a IH]; intros base Hbase.
  - cbn. rewrite (rfind_from_absent _ _ _ Habs), Ascii.eqb_refl. cbn. lia.
  - cbn [append Str.rfind_from String.length]. rewrite IH by lia.
    destruct (Z.leb_spec 0 (base + 1 + Z.of_nat (String.length a))); lia.
Qed.

Lemma rfind_from_endswith (c : ascii) (s : string) (base : Z) :
  0 <= base -> Str.endswith c s = true ->
  Str.rfind_from c s base = base + slen s - 1.
Proof.
  unfold slen. intros Hbase. revert base Hbase.
  induction s as [|x s IH]; intros base Hbase Hend.
  - discriminate.
  - destruct s as [|y s].
    + cbn in *. rewrite Hend. cbn. lia.
    + change (Str.endswith c (String x (String y s))) with (Str.endswith c (String y s)) in Hend.
      cbn [Str.rfind_from]. cbn [Str.rfind_from] in IH. rewrite (IH (base + 1)) by (lia || assumption).
      cbn [String.length].
      destruct (Z.leb_spec 0 (base + 1 + Z.of_nat (S (String.length s)) - 1)); lia.
Qed.

Lemma drop_app (a b : string) : Str.drop (String.length a) (a ++ b) = b.
Proof. induction a as [|x a IH]; cbn; [now destruct b | exact IH]. Qed.

Lemma take_app (a b : string) : Str.take (String.length a) (a ++ b) = a.
Proof. induction a as [|x a IH]; cbn; [now destruct b | now rewrite IH]. Qed.

Lemma get_app (a b : string) (x : ascii) :
  String.get (String.length a) (a ++ String x b) = Some x.
Proof. induction a as [|y a IH]; cbn; [reflexivity | exact IH]. Qed.

Lemma has_stem_app (a stem rest : string) :
  Posixpath.has_stem (a ++ stem ++ rest) (slen a) (String.length stem)
  = negb (all_dots stem).
Proof.
  unfold slen. revert a. induction stem as [|x stem IH]; intros a.
  - reflexivity.
  - cbn [Posixpath.has_stem String.length all_dots].
    unfold Str.char_at.
    destruct (Z.ltb_spec (Z.of_nat (String.length a)) 0); [lia|].
    rewrite Nat2Z.id. cbn [append]. rewrite get_app.
    change Posixpath.extsep with "."%char.
    destruct (Ascii.eqb x "."); [|reflexivity].
    cbn [andb].
    specialize (IH (a ++ String x "")).
    rewrite string_app_assoc in IH. cbn [append] in IH.
    rewrite string_app_length in IH. cbn [String.length] in IH.
    rewrite <- IH. f_equal. lia.
Qed.

End StrLemmas.

Section SplitextLemmas.
Local Open Scope string_scope.

Lemma rfind_sep_dir (dir name : string) :
  is_dir_prefix dir = true -> occurs "/" name = false ->
  Str.rfind Posixpath.sep (dir ++ name) = slen dir - 1.
Proof.
  intros Hdir Hname. unfold Str.rfind, Posixpath.sep.
  rewrite rfind_from_app_absent by assumption.
  apply orb_true_iff in Hdir as [Hempty | Hend].
  - apply String.eqb_eq in Hempty. subst dir. reflexivity.
  - rewrite rfind_from_endswith by (lia || assumption). lia.
Qed.

Lemma slen_app (a b : string) : slen (a ++ b) = slen a + slen b.
Proof. unfold slen. rewrite string_app_length. lia. Qed.

Lemma slice_from_app (a b : string) : Str.slice_from (a ++ b) (slen a) = b.
Proof.
  unfold Str.slice_from, Str.slice_bound, slen.
  rewrite string_app_length.
  destruct (Z.ltb_spec (Z.of_nat (String.length a)) 0); [lia|].
  replace (Z.to_nat _) with (String.length a) by lia.
  apply drop_app.
Qed.

Lemma slice_to_app (a b : string) : Str.slice_to (a ++ b) (slen a) = a.
Proof.
  unfold Str.slice_to, Str.slice_bound, slen.
  rewrite string_app_length.
  destruct (Z.ltb_spec (Z.of_nat (String.length a)) 0); [lia|].
  replace (Z.to_nat _) with (String.length a) by lia.
  apply take_app.
Qed.

Lemma splitext_suffix (dir stem suffix : string) :
  is_dir_prefix dir = true ->
  occurs "/" stem = false -> all_dots stem = false ->
  occurs "." suffix = false -> occurs "/" suffix = false ->
  Posixpath.splitext (dir ++ stem ++ "." ++ suffix)
  = (dir ++ stem, "." ++ suffix).
Proof.
  intros Hdir Hstem Hnondot Hdot Hsep. unfold Posixpath.splitext.
  rewrite rfind_sep_dir; [|assumption|].
  2:{ rewrite occurs_app, Hstem. cbn. exact Hsep. }
  assert (Hdotidx : Str.rfind Posixpath.extsep (dir ++ stem ++ "." ++ suffix)
                    = slen (dir ++ stem)).
  { rewrite <- string_app_assoc. unfold Str.rfind, Posixpath.extsep.
    cbn [append]. rewrite rfind_from_last by (lia || assumption). lia. }
  rewrite Hdotidx.
  replace (slen dir - 1 + 1) with (slen dir) by lia.
  replace (Z.to_nat (slen (dir ++ stem) - slen dir)) with (String.length stem)
    by (rewrite slen_app; unfold slen; lia).
  rewrite has_stem_app, Hnondot.
  destruct (Z.ltb_spec (slen dir - 1) (slen (dir ++ stem)));
    [|rewrite slen_app in *; unfold slen in *; lia].
  cbn [andb negb].
  rewrite <- string_app_assoc.
  now rewrite slice_to_app, slice_from_app.
Qed.

Lemma all_dots_no_sep (dots : string) :
  all_dots dots = true -> occurs "/" dots = false.
Proof.
  induction dots as [|c dots IH]; [reflexivity|].
  cbn [all_dots occurs]. intros Hall.
  apply andb_true_iff in Hall as [Hc Hall].
  apply Ascii.eqb_eq in Hc. subst c. now rewrite (IH Hall).
Qed.

(** A file name whose only dots are leading ones has no extension. *)
Lemma splitext_leading_dots (dir dots rest : string) :
  is_dir_prefix dir = true -> all_dots dots = true ->
  occurs "." rest = false -> occurs "/" rest = false ->
  Posixpath.splitext (dir ++ dots ++ "." ++ rest)
  = (dir ++ dots ++ "." ++ rest, "").
Proof.
  intros Hdir Hdots Hdot Hsep. unfold Posixpath.splitext.
  rewrite rfind_sep_dir; [|assumption|].
  2:{ rewrite occurs_app, (all_dots_no_sep dots Hdots). cbn. exact Hsep. }
  assert (Hdotidx : Str.rfind Posixpath.extsep (dir ++ dots ++ "." ++ rest)
                    = slen (dir ++ dots)).
  { rewrite <- string_app_assoc. unfold Str.rfind, Posixpath.extsep.
    cbn [append]. rewrite rfind_from_last by (lia || assumption). lia. }
  rewrite Hdotidx.
  replace (slen dir - 1 + 1) with (slen dir) by lia.
  replace (Z.to_nat (slen (dir ++ dots) - slen dir)) with (String.length dots)
    by (rewrite slen_app; unfold slen; lia).
  rewrite has_stem_app, Hdots. cbn [negb]. now rewrite andb_false_r.
Qed.

Lemma basename_dir (dir name : string) :
  is_dir_prefix dir = true -> occurs "/" name = false ->
  Posixpath.basename (dir ++ name) = name.
Proof.
  intros Hdir Hname. unfold Posixpath.basename.
  rewrite rfind_sep_dir by assumption.
  replace (slen dir - 1 + 1) with (slen dir) by lia.
  apply slice_from_app.
Qed.

Lemma splitext_no_dot (dir name : string) :
  is_dir_prefix dir = true ->
  occurs "/" name = false -> occurs "." name = false ->
  Posixpath.splitext (dir ++ name) = (dir ++ name, "").
Proof.
  intros Hdir Hsep Hdot. unfold Posixpath.splitext.
  rewrite rfind_sep_dir by assumption.
  unfold Str.rfind, Posixpath.extsep.
  rewrite rfind_from_app_absent by assumption.
  destruct (rfind_from_range "." dir 0 ltac:(lia)) as [-> | Hr].
  - destruct (Z.ltb_spec (slen dir - 1) (-1)); [unfold slen in *; lia|].
    reflexivity.
  - destruct (Z.ltb_spec (slen dir - 1) (Str.rfind_from "." dir 0)); [lia|].
    reflexivity.
Qed.

End SplitextLemmas.

(* ================================================================= *)
(** ** Lemmas on the spacing computation *)

Lemma truediv_nonzero {F : Type} `{Arith F} (a b : Z) :
  b <> 0 -> truediv a b = inr (quotient a b).
Proof.
  intros Hb. unfold truediv. destruct (Z.eqb_spec b 0); [contradiction|reflexivity].
Qed.

Lemma getitem_nat {A : Type} (xs : list A) (k : nat) (d : A) :
  (k < List.length xs)%nat -> getitem xs (Z.of_nat k) = inr (nth k xs d).
Proof.
  intros Hk. unfold getitem.
  assert (Hnonneg : (Z.of_nat k <? 0) = false) by (apply Z.ltb_ge; lia).
  cbv zeta. rewrite !Hnonneg, Nat2Z.id.
  destruct (nth_error xs k) as [x|] eqn:Hx.
  - rewrite (nth_error_nth _ _ d Hx). reflexivity.
  - apply nth_error_None in Hx. lia.
Qed.

Lemma scaled_spacing_ok {F : Type} `{Arith F} (size : list Z) (spacing : list F)
      (new_size : list Z) (k : nat) :
  (k < List.length new_size)%nat ->
  (List.length new_size <= List.length size)%nat ->
  List.length spacing = List.length size ->
  nth k new_size 0 <> 0 ->
  scaled_spacing size spacing new_size (Z.of_nat k)
  = inr (mul (nth k spacing one)
             (quotient (nth k size 0) (nth k new_size 0))).
Proof.
  intros Hk Hlen Hsp Hnz. unfold scaled_spacing.
  rewrite (getitem_nat spacing k one) by lia.
  rewrite (getitem_nat size k 0) by lia.
  rewrite (getitem_nat new_size k 0) by lia.
  cbn [bind]. rewrite truediv_nonzero by assumption. reflexivity.
Qed.

Lemma valid_request_nonzero {F : Type} (size : list Z) (spacing : list F)
      (new_size : list Z) (k : nat) :
  valid_request size spacing new_size ->
  (k < List.length new_size)%nat -> 0 < nth k new_size 0.
Proof.
  intros (_ & Hpos & _) Hk.
  rewrite Forall_forall in Hpos. apply Hpos. now apply nth_In.
Qed.

Lemma new_spacing_formula {F : Type} `{Arith F} (size : list Z)
      (spacing : list F) (new_size : list Z) :
  valid_request size spacing new_size ->
  let scaled k :=
    mul (nth k spacing one)
        (quotient (nth k size 0) (nth k new_size 0)) in
  new_spacing size spacing new_size
  = inr [scaled 0%nat; scaled 1%nat;
         if (2 <? len new_size)%Z then scaled 2%nat else one].
Proof.
  intros Hvalid scaled.
  pose proof (valid_request_nonzero size spacing new_size) as Hnz.
  destruct Hvalid as (Hlen & Hpos & Hsize & Hsp).
  unfold new_spacing.
  rewrite (scaled_spacing_ok size spacing new_size 0);
    try lia; [|apply Z.neq_sym, Z.lt_neq, Hnz; [repeat split; assumption | lia]].
  rewrite (scaled_spacing_ok size spacing new_size 1);
    try lia; [|apply Z.neq_sym, Z.lt_neq, Hnz; [repeat split; assumption | lia]].
  cbn [bind]. unfold len.
  destruct (Z.ltb_spec 2 (Z.of_nat (List.length new_size))).
  - rewrite (scaled_spacing_ok size spacing new_size 2);
      try lia; [|apply Z.neq_sym, Z.lt_neq, Hnz; [repeat split; assumption | lia]].
    reflexivity.
  - reflexivity.
Qed.

(** [resize_image], step by step: it returns [r] exactly when each step
    returned, and then [r] holds the request, the dictionary and the two
    paths that were handed to the libraries. *)
Lemma resize_image_inv {F : Type} `{Arith F} (lib : Library F)
      (path out : string) (fmt : option string) (image : Image F)
      (new_size : list Z) (r : resized F) :
  resize_image lib path image new_size out fmt = inr r <->
  (completed lib image new_size r /\
   metadata r = sidecar_of image /\
   output_image_path r = resized_image_path path out fmt /\
   output_meta_path r = resized_meta_path path out).
Proof.
  unfold resize_image, completed.
  fold (base_name_of path). fold (resized_image_path path out fmt).
  fold (resized_meta_path path out). fold (sidecar_of image).
  split.
  - destruct (new_spacing (GetSize image) (GetSpacing image) new_size)
      as [e | spacing]; cbn [bind]; [discriminate|].
    fold (resample_request image new_size spacing).
    destruct (sitk_Resample lib image (resample_request image new_size spacing))
      as [e | img] eqn:Hres; cbn [bind]; [discriminate|].
    destruct (sitk_WriteImage lib img (resized_image_path path out fmt))
      as [e | []] eqn:Hwrite; cbn [bind]; [discriminate|].
    destruct (write_json lib (resized_meta_path path out) (sidecar_of image))
      as [e | []] eqn:Hdump; cbn [bind ret]; [discriminate|].
    intros [= <-]. cbn [resample metadata output_image_path output_meta_path].
    split; [|repeat split]. exists spacing, img. repeat split; assumption.
  - intros ((spacing & img & Hsp & Hreq & Hres & Hwrite & Hdump) & Hmeta & Hip & Hmp).
    rewrite Hsp. cbn [bind]. fold (resample_request image new_size spacing).
    rewrite <- Hreq, Hres. cbn [bind].
    rewrite <- Hip, Hwrite. cbn [bind].
    rewrite <- Hmp, <- Hmeta, Hdump. cbn [bind ret].
    destruct r; reflexivity.
Qed.

(** When the libraries return, so does [resize_image], as soon as the
    spacing can be computed. *)
Lemma resize_image_returns {F : Type} `{Arith F} (lib : Library F)
      (path out : string) (fmt : option string) (image : Image F)
      (new_size : list Z) (spacing : list F) :
  library_returns lib ->
  new_spacing (GetSize image) (GetSpacing image) new_size = inr spacing ->
  exists r, resize_image lib path image new_size out fmt = inr r.
Proof.
  intros (Hres & Hwrite & Hdump) Hsp.
  destruct (Hres image (resample_request image new_size spacing)) as (img & Himg).
  exists (mk_resized (resample_request image new_size spacing) (sidecar_of image)
                     (resized_image_path path out fmt) (resized_meta_path path out)).
  apply resize_image_inv. cbn [resample metadata output_image_path output_meta_path].
  split; [|repeat split]. exists spacing, img. repeat split; auto.
Qed.

Lemma inject_Z_nonzero (b : Z) : b <> 0 -> ~ (inject_Z b == 0)%Q.
Proof. intros Hb Heq. apply Hb. unfold Qeq in Heq. cbn in Heq. lia. Qed.

(* ================================================================= *)
(** ** Properties of resizing *)

Section ResizeProperties.
Local Open Scope string_scope.

(** C6, as stated, fails: for [foo.nii.gz] the derived format is [gz],
    whereas the part of the file name after its first dot is [nii.gz]. *)
Lemma C6_first_dot_differs :
  resolve_output_format "foo.nii.gz" None = "gz" /\
  after_first_dot (Posixpath.basename "foo.nii.gz") = "nii.gz" /\
  String.eqb (resolve_output_format "foo.nii.gz" None)
             (after_first_dot (Posixpath.basename "foo.nii.gz")) = false.
Proof. repeat split. Qed.

(** C6, amended.  An explicit output format is used as it is.  Without
    one, the format is the part of the file name after its last dot:
    for a path [dir ++ stem ++ "." ++ suffix] whose [suffix] holds
    neither dot nor separator and whose file-name part [stem] holds a
    character other than a dot, it is [suffix].  It is empty for a file
    name without a dot, and for a file name whose only dots are leading
    ones ([.nii], [..nii]).  For [foo.nii.gz] it is [gz]. *)
Theorem C6_format_after_last_dot :
  (forall (path f : string), resolve_output_format path (Some f) = f) /\
  (forall dir stem suffix : string,
      is_dir_prefix dir = true ->
      occurs "/" stem = false -> all_dots stem = false ->
      occurs "." suffix = false -> occurs "/" suffix = false ->
      resolve_output_format (dir ++ stem ++ "." ++ suffix) None = suffix) /\
  (forall dir name : string,
      is_dir_prefix dir = true ->
      occurs "/" name = false -> occurs "." name = false ->
      resolve_output_format (dir ++ name) None = "") /\
  (forall dir dots rest : string,
      is_dir_prefix dir = true -> all_dots dots = true ->
      occurs "." rest = false -> occurs "/" rest = false ->
      resolve_output_format (dir ++ dots ++ "." ++ rest) None = "") /\
  resolve_output_format "foo.nii.gz" None = "gz".
Proof.
  split; [reflexivity|]. split; [|split; [|split; [|reflexivity]]].
  - intros dir stem suffix Hdir Hstem Hnondot Hdot Hsep.
    unfold resolve_output_format. rewrite splitext_suffix by assumption.
    cbn [snd]. apply (slice_from_app "." suffix).
  - intros dir name Hdir Hsep Hdot.
    unfold resolve_output_format. rewrite splitext_no_dot by assumption.
    reflexivity.
  - intros dir dots rest Hdir Hdots Hdot Hsep.
    unfold resolve_output_format. rewrite splitext_leading_dots by assumption.
    reflexivity.
Qed.

(** [/data/scan.v2.mha] has format [mha]; [/data.d/scan], [/data/.nii]
    and [..nii] have none. *)
Lemma C6_format_after_last_dot_witness :
  resolve_output_format ("/data/" ++ "scan.v2" ++ "." ++ "mha") None = "mha" /\
  resolve_output_format ("/data.d/" ++ "scan") None = "" /\
  resolve_output_format ("/data/" ++ "" ++ "." ++ "nii") None = "" /\
  resolve_output_format ("" ++ "." ++ "." ++ "nii") None = "".
Proof.
  split; [|split; [|split]].
  - apply (proj1 (proj2 C6_format_after_last_dot) "/data/" "scan.v2" "mha");
      reflexivity.
  - apply (proj1 (proj2 (proj2 C6_format_after_last_dot)) "/data.d/" "scan");
      reflexivity.
  - apply (proj1 (proj2 (proj2 (proj2 C6_format_after_last_dot))) "/data/" "" "nii");
      reflexivity.
  - apply (proj1 (proj2 (proj2 (proj2 C6_format_after_last_dot))) "" "." "nii");
      reflexivity.
Defined.

(** C8.  Whenever the resize operation returns, the sidecar it has
    written (the dictionary handed to [json.dump], for the file opened
    at [<base>_resized_meta.json] under the output directory) has
    exactly the four keys [original_size], [original_spacing],
    [original_direction] and [original_origin], once each and in this
    order; [original_size] holds the size of the source image as read,
    and the three other keys its spacing, direction and origin.  For a
    valid resize request the operation returns whenever the library
    calls do. *)
Theorem C8_metadata_sidecar :
  forall (F : Type) (A : Arith F) (lib : Library F) (path out : string)
         (fmt : option string) (image : Image F) (new_size : list Z),
    (forall r,
        resize_image lib path image new_size out fmt = inr r ->
        write_json lib (Posixpath.join out (base_name_of path ++ "_resized_meta.json"))
                   (metadata r) = inr tt /\
        output_meta_path r
        = Posixpath.join out (base_name_of path ++ "_resized_meta.json") /\
        map fst (metadata r)
        = ["original_size"; "original_spacing"; "original_direction";
           "original_origin"] /\
        NoDup (map fst (metadata r)) /\
        dict_get "original_size" (metadata r) = Some (IntTuple (GetSize image)) /\
        dict_get "original_spacing" (metadata r)
        = Some (FloatTuple (GetSpacing image)) /\
        dict_get "original_direction" (metadata r)
        = Some (FloatTuple (GetDirection image)) /\
        dict_get "original_origin" (metadata r)
        = Some (FloatTuple (GetOrigin image))) /\
    (valid_request (GetSize image) (GetSpacing image) new_size ->
     library_returns lib ->
     exists r, resize_image lib path image new_size out fmt = inr r).
Proof.
  intros F A lib path out fmt image new_size. split.
  - intros r Hr. apply resize_image_inv in Hr
      as ((spacing & img & _ & _ & _ & _ & Hdump) & Hmeta & _ & Hmp).
    rewrite Hmp in Hdump. fold (resized_meta_path path out).
    split; [exact Hdump|]. split; [exact Hmp|].
    rewrite Hmeta. unfold sidecar_of. cbn [map fst].
    repeat split.
    repeat constructor; cbn; intuition discriminate.
  - intros Hvalid Hlib.
    eapply resize_image_returns; [exact Hlib|].
    apply new_spacing_formula. exact Hvalid.
Qed.

(** Resizing [/data/scan.nii], a (64,64,32) volume, to [32,32,16] under
    [/out], with a library that checks its arguments. *)
Lemma C8_metadata_sidecar_witness :
  exists r,
    resize_image checking_library "/data/scan.nii"
      (mk_Image [64; 64; 32] [1; 1; 2]%float [1; 0; 0; 0; 1; 0; 0; 0; 1]%float
                [0; 0; 0]%float 8)
      [32; 32; 16] "/out" None = inr r /\
    write_json checking_library "/out/scan_resized_meta.json" (metadata r) = inr tt /\
    dict_get "original_size" (metadata r) = Some (IntTuple [64; 64; 32]).
Proof.
  eexists. split; [vm_compute; reflexivity|].
  match goal with
  | |- ?written /\ ?size =>
      destruct (proj1 (C8_metadata_sidecar float binary64 checking_library
                         "/data/scan.nii" "/out" None
                         (mk_Image [64; 64; 32] [1; 1; 2]%float
                                   [1; 0; 0; 0; 1; 0; 0; 0; 1]%float
                                   [0; 0; 0]%float 8)
                         [32; 32; 16]) _ ltac:(vm_compute; reflexivity))
        as (Hdump & _ & _ & _ & Hsize & _)
  end.
  split; [exact Hdump | exact Hsize].
Defined.

End ResizeProperties.

(* ================================================================= *)
(** ** Further properties of slice extraction *)

Lemma getitem_out_of_range {A : Type} (xs : list A) (k : nat) :
  (List.length xs <= k)%nat -> getitem xs (Z.of_nat k) = inl IndexError.
Proof.
  intros Hk. unfold getitem.
  assert (Hnonneg : (Z.of_nat k <? 0) = false) by (apply Z.ltb_ge; lia).
  cbv zeta. rewrite !Hnonneg, Nat2Z.id.
  destruct (nth_error xs k) as [x|] eqn:Hx; [|reflexivity].
  assert (nth_error xs k <> None) as Hsome by congruence.
  apply nth_error_Some in Hsome. lia.
Qed.

(** The first loop raises [IndexError] on a location with fewer than
    three entries. *)
Lemma collect_slices_short_location {V : Type} (array : ndarray3 V)
      (location : list Z) (n : Z) :
  (List.length location < 3)%nat ->
  collect_slices array location n = inl IndexError.
Proof.
  intros Hlen. unfold collect_slices, views. cbn [for_each]. decide_literals.
  destruct location as [|c0 [|c1 [|c2 rest]]]; cbn [List.length] in Hlen; try lia.
  - reflexivity.
  - change (getitem [c0] 0) with (@inr exn Z c0). cbn [bind].
    rewrite (for_each_append (Np.take0 array) (plane0 array)
               (fun i p => (slice_name "axial" i, p))).
    2:{ eapply Forall_impl; [|apply window_in_bounds].
        intros i Hi. now apply take0_in_bounds. }
    reflexivity.
  - change (getitem [c0; c1] 0) with (@inr exn Z c0).
    change (getitem [c0; c1] 1) with (@inr exn Z c1). cbn [bind].
    rewrite (for_each_append (Np.take0 array) (plane0 array)
               (fun i p => (slice_name "axial" i, p))).
    2:{ eapply Forall_impl; [|apply window_in_bounds].
        intros i Hi. now apply take0_in_bounds. }
    cbn [bind].
    rewrite (for_each_append (Np.take1 array) (plane1 array)
               (fun i p => (slice_name "coronal" i, p))).
    2:{ eapply Forall_impl; [|apply window_in_bounds].
        intros i Hi. now apply take1_in_bounds. }
    reflexivity.
Qed.

(** A given location needs three entries.  With fewer the call raises
    [IndexError] (before anything is written, the files being written
    after the loop over the views); with three or more it returns, and
    the entries after the third are not read. *)
Theorem location_needs_three_entries :
  forall (V U : Type) (norm : ndarray2 V -> ndarray2 U) (path out : string)
         (array : ndarray3 V) (location : list Z) (n : Z),
    ((List.length location < 3)%nat ->
     extract_2d_slices norm path array (Some location) n out = inl IndexError) /\
    ((3 <= List.length location)%nat ->
     exists files,
       extract_2d_slices norm path array (Some location) n out = inr files /\
       extract_2d_slices norm path array (Some (firstn 3 location)) n out
       = inr files).
Proof.
  intros V U norm path out array location n. split.
  - intros Hlen. unfold extract_2d_slices.
    now rewrite collect_slices_short_location.
  - intros Hlen.
    destruct location as [|c0 [|c1 [|c2 rest]]]; cbn [List.length] in Hlen; try lia.
    eexists. split; [apply extract_2d_slices_views|].
    cbn [firstn]. apply extract_2d_slices_views.
Qed.

Lemma location_needs_three_entries_witness :
  extract_2d_slices (fun p : ndarray2 Z => p) "scan.nii"
    (mk_ndarray3 10 10 10 (fun i j k => i + j + k)) (Some [5; 5]) 1 "out"
  = inl IndexError /\
  exists files,
    extract_2d_slices (fun p : ndarray2 Z => p) "scan.nii"
      (mk_ndarray3 10 10 10 (fun i j k => i + j + k)) (Some [5; 5; 5; 7]) 1 "out"
    = inr files /\
    extract_2d_slices (fun p : ndarray2 Z => p) "scan.nii"
      (mk_ndarray3 10 10 10 (fun i j k => i + j + k))
      (Some (firstn 3 [5; 5; 5; 7])) 1 "out"
    = inr files.
Proof.
  split.
  - apply (proj1 (location_needs_three_entries Z Z (fun p => p) "scan.nii" "out"
                    (mk_ndarray3 10 10 10 (fun i j k => i + j + k)) [5; 5] 1)).
    cbn. lia.
  - apply (proj2 (location_needs_three_entries Z Z (fun p => p) "scan.nii" "out"
                    (mk_ndarray3 10 10 10 (fun i j k => i + j + k)) [5; 5; 5; 7] 1)).
    cbn. lia.
Defined.

(** Only [N // 2] matters: an even count [2k] extracts exactly what the
    odd count [2k + 1] extracts, whatever the array and the location. *)
Theorem even_count_same_as_next_odd :
  forall (V U : Type) (norm : ndarray2 V -> ndarray2 U) (path out : string)
         (array : ndarray3 V) (location : option (list Z)) (k : Z),
    extract_2d_slices norm path array location (2 * k) out
    = extract_2d_slices norm path array location (2 * k + 1) out.
Proof.
  intros V U norm path out array location k.
  unfold extract_2d_slices, collect_slices, floordiv.
  replace ((2 * k + 1) / 2) with (2 * k / 2); [reflexivity|].
  rewrite (Z.mul_comm 2 k), Z.div_mul by lia.
  symmetry. rewrite Z.add_comm, Z.div_add by lia. reflexivity.
Qed.

(** A negative count extracts nothing and raises nothing. *)
Theorem negative_count_extracts_nothing :
  forall (V U : Type) (norm : ndarray2 V -> ndarray2 U) (path out : string)
         (array : ndarray3 V) (c0 c1 c2 n : Z),
    n < 0 ->
    extract_2d_slices norm path array (Some [c0; c1; c2]) n out
    = inr (mk_extraction [] []).
Proof.
  intros V U norm path out array c0 c1 c2 n Hn.
  rewrite extract_2d_slices_views.
  assert (Hhalf : n / 2 <= -1).
  { assert (n / 2 < 0) by (apply Z.div_lt_upper_bound; lia). lia. }
  rewrite !window_empty by lia. reflexivity.
Qed.

Lemma negative_count_extracts_nothing_witness :
  extract_2d_slices (fun p : ndarray2 Z => p) "scan.nii"
    (mk_ndarray3 10 10 10 (fun i j k => i + j + k)) (Some [5; 5; 5]) (-3) "out"
  = inr (mk_extraction [] []).
Proof.
  apply (negative_count_extracts_nothing Z Z (fun p => p) "scan.nii" "out"
           (mk_ndarray3 10 10 10 (fun i j k => i + j + k)) 5 5 5 (-3)).
  lia.
Defined.

(** The midpoint slice is always there: without a location, for a count
    [N >= 0] and an array with no empty axis, every view includes the
    slice through the midpoint of its axis, so at least three files are
    written. *)
Theorem default_center_slices_present :
  forall (V U : Type) (norm : ndarray2 V -> ndarray2 U) (path out : string)
         (array : ndarray3 V) (n : Z),
    0 <= n ->
    0 < extent0 array -> 0 < extent1 array -> 0 < extent2 array ->
    exists files,
      extract_2d_slices norm path array None n out = inr files /\
      In (png_path out (base_name_of path)
                   (slice_name "axial" (extent0 array / 2)))
         (output_files files) /\
      In (png_path out (base_name_of path)
                   (slice_name "coronal" (extent1 array / 2)))
         (output_files files) /\
      In (png_path out (base_name_of path)
                   (slice_name "sagittal" (extent2 array / 2)))
         (output_files files).
Proof.
  intros V U norm path out array n Hn He0 He1 He2.
  assert (Hhalf : 0 <= n / 2) by (apply Z.div_pos; lia).
  assert (Hmid : forall e, 0 < e -> In (e / 2) (window (e / 2) n e)).
  { intros e He. apply window_In.
    assert (0 <= e / 2 < e).
    { split; [apply Z.div_pos; lia | apply Z.div_lt_upper_bound; lia]. }
    lia. }
  eexists. split.
  - change (extract_2d_slices norm path array None n out)
      with (extract_2d_slices norm path array
              (Some [extent0 array / 2; extent1 array / 2; extent2 array / 2])
              n out).
    apply extract_2d_slices_views.
  - cbn [output_files]. rewrite !map_app. unfold view_slices. rewrite !map_map.
    cbn [fst]. rewrite !in_app_iff.
    split; [|split].
    + left. apply (in_map (fun i => png_path out (base_name_of path)
                                             (slice_name "axial" i))).
      now apply Hmid.
    + right. left.
      apply (in_map (fun i => png_path out (base_name_of path)
                                       (slice_name "coronal" i))).
      now apply Hmid.
    + right. right.
      apply (in_map (fun i => png_path out (base_name_of path)
                                       (slice_name "sagittal" i))).
      now apply Hmid.
Qed.

Lemma default_center_slices_present_witness :
  exists files,
    extract_2d_slices (fun p : ndarray2 Z => p) "scan.nii"
      (mk_ndarray3 7 1 4 (fun i j k => i + j + k)) None 0 "out" = inr files /\
    In (png_path "out" (base_name_of "scan.nii") (slice_name "axial" (7 / 2)))
       (output_files files) /\
    In (png_path "out" (base_name_of "scan.nii") (slice_name "coronal" (1 / 2)))
       (output_files files) /\
    In (png_path "out" (base_name_of "scan.nii") (slice_name "sagittal" (4 / 2)))
       (output_files files).
Proof.
  apply (default_center_slices_present Z Z (fun p => p) "scan.nii" "out"
           (mk_ndarray3 7 1 4 (fun i j k => i + j + k)) 0); cbn; lia.
Defined.

(* ----------------------------------------------------------------- *)
(** *** File names do not collide within one call *)

Section Names.
Local Open Scope string_scope.

Lemma str_of_int_inj (i j : Z) : str_of_int i = str_of_int j -> i = j.
Proof.
  unfold str_of_int. intros Heq.
  assert (Hcanon : forall z, NilZero.int_of_string (NilZero.string_of_int (Z.to_int z))
                             = Some (Z.to_int z)).
  { intros z. apply NilZero.isi; intros Habs;
      assert (Hz : z = 0) by (rewrite <- (DecimalZ.of_to z), Habs; reflexivity);
      subst z; discriminate Habs. }
  apply (f_equal NilZero.int_of_string) in Heq.
  rewrite !Hcanon in Heq. injection Heq as Heq.
  apply (f_equal Z.of_int) in Heq. now rewrite !DecimalZ.of_to in Heq.
Qed.

Lemma string_app_inv_head (a b c : string) : a ++ b = a ++ c -> b = c.
Proof.
  induction a as [|x a IH]; cbn; intros Heq; [exact Heq|].
  injection Heq as Heq. now apply IH.
Qed.

Lemma list_ascii_app (a b : string) :
  list_ascii_of_string (a ++ b)
  = (list_ascii_of_string a ++ list_ascii_of_string b)%list.
Proof. induction a as [|x a IH]; cbn; [reflexivity | now rewrite IH]. Qed.

Lemma string_app_inv_tail (a b c : string) : a ++ c = b ++ c -> a = b.
Proof.
  intros Heq. apply (f_equal list_ascii_of_string) in Heq.
  rewrite !list_ascii_app in Heq. apply app_inv_tail in Heq.
  apply (f_equal string_of_list_ascii) in Heq.
  now rewrite !string_of_list_ascii_of_string in Heq.
Qed.

(** For a given output directory and base name, [os.path.join] puts the
    same prefix before every file name of the call. *)
Lemma join_common_prefix (out base : string) :
  exists pre, forall rest,
      Posixpath.join out (base ++ "_" ++ rest) = pre ++ base ++ "_" ++ rest.
Proof.
  unfold Posixpath.join.
  destruct base as [|c base].
  - cbn [append Str.startswith]. change (Ascii.eqb "_" Posixpath.sep) with false.
    cbv iota.
    destruct (String.eqb out "" || Str.endswith Posixpath.sep out).
    + exists out. reflexivity.
    + exists (out ++ String Posixpath.sep ""). intros rest.
      now rewrite string_app_assoc.
  - cbn [append Str.startswith].
    destruct (Ascii.eqb c Posixpath.sep).
    + exists "". reflexivity.
    + destruct (String.eqb out "" || Str.endswith Posixpath.sep out).
      * exists out. reflexivity.
      * exists (out ++ String Posixpath.sep ""). intros rest.
        now rewrite string_app_assoc.
Qed.

Lemma png_path_inj (out base n1 n2 : string) :
  png_path out base n1 = png_path out base n2 -> n1 = n2.
Proof.
  unfold png_path. destruct (join_common_prefix out base) as (pre & Hpre).
  rewrite !Hpre. intros Heq.
  do 2 apply string_app_inv_head in Heq.
  change ("_" ++ n1 ++ ".png") with (String "_" (n1 ++ ".png")) in Heq.
  change ("_" ++ n2 ++ ".png") with (String "_" (n2 ++ ".png")) in Heq.
  injection Heq as Heq. now apply string_app_inv_tail in Heq.
Qed.

Lemma view_names_NoDup (view : string) (w : list Z) :
  NoDup w -> NoDup (map (slice_name view) w).
Proof.
  intros Hw. apply NoDup_map_NoDup_ForallPairs; [|exact Hw].
  intros i j _ _ Heq. unfold slice_name in Heq.
  apply string_app_inv_head in Heq.
  change ("_" ++ str_of_int i) with (String "_" (str_of_int i)) in Heq.
  change ("_" ++ str_of_int j) with (String "_" (str_of_int j)) in Heq.
  injection Heq as Heq. now apply str_of_int_inj.
Qed.

(** The files one call writes, for any location it accepts. *)
Lemma extract_output_files {V U : Type} (norm : ndarray2 V -> ndarray2 U)
      (path out : string) (array : ndarray3 V) (location : option (list Z))
      (n : Z) (files : extraction) :
  extract_2d_slices norm path array location n out = inr files ->
  output_files files
  = map (png_path out (base_name_of path))
        (slice_names (extent0 array) (extent1 array) (extent2 array)
           (match location with
            | None => default_location array
            | Some l => l
            end) n) /\
  map fst (written files) = output_files files.
Proof.
  intros Hrun.
  assert (Hthree : forall c0 c1 c2 rest,
             extract_2d_slices norm path array (Some (c0 :: c1 :: c2 :: rest)) n out
             = inr files ->
             output_files files
             = map (png_path out (base_name_of path))
                   (slice_names (extent0 array) (extent1 array) (extent2 array)
                                (c0 :: c1 :: c2 :: rest) n) /\
             map fst (written files) = output_files files).
  { intros c0 c1 c2 rest Hr. rewrite extract_2d_slices_views in Hr.
    injection Hr as <-. cbn [output_files written slice_names].
    split; [|now rewrite map_map].
    rewrite !map_app. unfold view_slices. rewrite !map_map. reflexivity. }
  destruct location as [[|c0 [|c1 [|c2 rest]]]|].
  - unfold extract_2d_slices in Hrun.
    rewrite collect_slices_short_location in Hrun by (cbn; lia). discriminate Hrun.
  - unfold extract_2d_slices in Hrun.
    rewrite collect_slices_short_location in Hrun by (cbn; lia). discriminate Hrun.
  - unfold extract_2d_slices in Hrun.
    rewrite collect_slices_short_location in Hrun by (cbn; lia). discriminate Hrun.
  - now apply Hthree.
  - now apply (Hthree (extent0 array / 2) (extent1 array / 2)
                 (extent2 array / 2) []).
Qed.

Lemma slice_names_NoDup (e0 e1 e2 : Z) (location : list Z) (n : Z) :
  NoDup (slice_names e0 e1 e2 location n).
Proof.
  unfold slice_names.
  destruct location as [|c0 [|c1 [|c2 rest]]]; try constructor.
  apply NoDup_app; [apply view_names_NoDup, range_NoDup| |].
  - apply NoDup_app; [apply view_names_NoDup, range_NoDup
                     |apply view_names_NoDup, range_NoDup|].
    intros name Hcor Hsag.
    apply in_map_iff in Hcor as (i & <- & _).
    apply in_map_iff in Hsag as (j & Heq & _).
    discriminate Heq.
  - intros name Hax Hrest.
    apply in_map_iff in Hax as (i & <- & _).
    apply in_app_iff in Hrest as [Hin | Hin];
      apply in_map_iff in Hin as (j & Heq & _); discriminate Heq.
Qed.

(** No two slices of one call are written to the same file: whenever the
    call returns, the paths in [output_files] are pairwise distinct,
    whatever the array, the location, the count and the output
    directory, and they are the paths handed to the image writer. *)
Theorem output_files_distinct :
  forall (V U : Type) (norm : ndarray2 V -> ndarray2 U) (path out : string)
         (array : ndarray3 V) (location : option (list Z)) (n : Z)
         (files : extraction),
    extract_2d_slices norm path array location n out = inr files ->
    NoDup (output_files files) /\
    map fst (written files) = output_files files.
Proof.
  intros V U norm path out array location n files Hrun.
  destruct (extract_output_files norm path out array location n files Hrun)
    as (Hfiles & Hwritten).
  split; [|exact Hwritten]. rewrite Hfiles.
  apply NoDup_map_NoDup_ForallPairs; [|apply slice_names_NoDup].
  intros n1 n2 _ _. apply png_path_inj.
Qed.

Lemma output_files_distinct_witness :
  exists files,
    extract_2d_slices (fun p : ndarray2 Z => p) "scan.nii"
      (mk_ndarray3 10 10 10 (fun i j k => i + j + k)) (Some [0; 5; 9]) 4 "out"
    = inr files /\
    NoDup (output_files files).
Proof.
  pose proof (extract_2d_slices_views (fun p : ndarray2 Z => p) "scan.nii"
                (mk_ndarray3 10 10 10 (fun i j k => i + j + k)) 0 5 9 [] 4 "out")
    as Hrun.
  cbv zeta in Hrun. eexists. split; [exact Hrun|].
  exact (proj1 (output_files_distinct _ _ _ _ _ _ _ _ _ Hrun)).
Defined.

End Names.

(* ================================================================= *)
(** ** Which slices are written *)

Section Emission.
Local Open Scope string_scope.

(** The slices a call writes for each view are those of the view's
    window. *)
Lemma writes_slice_iff {V U : Type} (norm : ndarray2 V -> ndarray2 U)
      (path out : string) (array : ndarray3 V) (c0 c1 c2 : Z) (rest : list Z)
      (n : Z) (files : extraction) :
  extract_2d_slices norm path array (Some (c0 :: c1 :: c2 :: rest)) n out
  = inr files ->
  (forall i, writes_slice files path out "axial" i
             <-> In i (window c0 n (extent0 array))) /\
  (forall i, writes_slice files path out "coronal" i
             <-> In i (window c1 n (extent1 array))) /\
  (forall i, writes_slice files path out "sagittal" i
             <-> In i (window c2 n (extent2 array))).
Proof.
  intros Hrun.
  destruct (extract_output_files norm path out array _ n files Hrun) as (Hfiles & _).
  assert (Hname : forall view i,
             writes_slice files path out view i
             <-> In (slice_name view i)
                    (slice_names (extent0 array) (extent1 array) (extent2 array)
                                 (c0 :: c1 :: c2 :: rest) n)).
  { intros view i. unfold writes_slice. rewrite Hfiles, in_map_iff. split.
    - intros (name & Heq & Hin). apply png_path_inj in Heq. now subst name.
    - intros Hin. now exists (slice_name view i). }
  assert (Hview : forall view i w,
             In (slice_name view i) (map (slice_name view) w) <-> In i w).
  { intros view i w. rewrite in_map_iff. split.
    - intros (j & Heq & Hin). unfold slice_name in Heq.
      apply string_app_inv_head in Heq.
      change ("_" ++ str_of_int j) with (String "_" (str_of_int j)) in Heq.
      change ("_" ++ str_of_int i) with (String "_" (str_of_int i)) in Heq.
      injection Heq as Heq. apply str_of_int_inj in Heq. now subst j.
    - intros Hin. now exists i. }
  cbn [slice_names] in Hname.
  split; [|split]; intros i; rewrite Hname, !in_app_iff;
    [rewrite <- (Hview "axial" i) | rewrite <- (Hview "coronal" i)
    | rewrite <- (Hview "sagittal" i)];
    (split; [|tauto]);
    intros [Hin | [Hin | Hin]]; try exact Hin;
    apply in_map_iff in Hin as (j & Heq & _); discriminate Heq.
Qed.

Lemma window_symmetric (c n e : Z) :
  0 <= c - n / 2 -> c + n / 2 <= e - 1 ->
  forall i, In i (window c n e) <-> c - n / 2 <= i <= c + n / 2.
Proof. intros Hlo Hhi i. rewrite window_In. lia. Qed.

Lemma window_clipped_to_axis (emits : Z -> Prop) (c n e : Z) :
  (forall i, emits i <-> In i (window c n e)) -> clipped_to_axis emits c n e.
Proof.
  intros Hemits.
  assert (Hiff : forall i, emits i
                           <-> (c - n / 2 <= i <= c + n / 2 /\ 0 <= i <= e - 1)).
  { intros i. now rewrite Hemits, window_In. }
  unfold clipped_to_axis. split; [exact Hiff|].
  split; [|split; [|split]].
  - intros He Hc Hreach. split; [apply Hiff; lia|].
    intros i Hi. apply Hiff in Hi. lia.
  - intros Hc Hfar i Hi. apply Hiff in Hi. lia.
  - intros He Hc Hreach. split; [apply Hiff; lia|].
    intros i Hi. apply Hiff in Hi. lia.
  - intros Hc Hfar i Hi. apply Hiff in Hi. lia.
Qed.

(** C3.  The window the code extracts around a center is not asymmetric:
    both bounds use the same [N // 2], so for every slice count [N],
    even or odd, a view whose window is not clipped by the axis writes
    exactly the slices at distance at most [N // 2] from the center, as
    many below it as above it.  (For an even [N] these are [N + 1]
    slices.) *)
Theorem C3_window_symmetric_about_center :
  forall (V U : Type) (norm : ndarray2 V -> ndarray2 U) (path out : string)
         (array : ndarray3 V) (c0 c1 c2 n : Z),
    exists files,
      extract_2d_slices norm path array (Some [c0; c1; c2]) n out = inr files /\
      (0 <= c0 - n / 2 -> c0 + n / 2 <= extent0 array - 1 ->
       symmetric_about (writes_slice files path out "axial") c0 (n / 2)) /\
      (0 <= c1 - n / 2 -> c1 + n / 2 <= extent1 array - 1 ->
       symmetric_about (writes_slice files path out "coronal") c1 (n / 2)) /\
      (0 <= c2 - n / 2 -> c2 + n / 2 <= extent2 array - 1 ->
       symmetric_about (writes_slice files path out "sagittal") c2 (n / 2)).
Proof.
  intros V U norm path out array c0 c1 c2 n.
  eexists. split; [apply extract_2d_slices_views|].
  destruct (writes_slice_iff norm path out array c0 c1 c2 [] n _
              (extract_2d_slices_views norm path array c0 c1 c2 [] n out))
    as (H0 & H1 & H2).
  split; [|split]; intros Hlo Hhi i.
  - rewrite H0. now apply window_symmetric.
  - rewrite H1. now apply window_symmetric.
  - rewrite H2. now apply window_symmetric.
Qed.

(** The even count [N = 2] around the center (5,5,5) of a (10,10,10)
    array: the axial slices written are 4, 5 and 6. *)
Lemma C3_window_symmetric_about_center_witness :
  exists files,
    extract_2d_slices (fun p : ndarray2 Z => p) "scan.nii"
      (mk_ndarray3 10 10 10 (fun i j k => i + j + k)) (Some [5; 5; 5]) 2 "out"
    = inr files /\
    symmetric_about (writes_slice files "scan.nii" "out" "axial") 5 (2 / 2).
Proof.
  destruct (C3_window_symmetric_about_center Z Z (fun p => p) "scan.nii" "out"
              (mk_ndarray3 10 10 10 (fun i j k => i + j + k)) 5 5 5 2)
    as (files & Hrun & Haxial & _).
  exists files. split; [exact Hrun|].
  apply Haxial; vm_compute; discriminate.
Defined.

(** C4, amended.  A center outside an axis never makes the operation
    fail.  Each view writes the part of the interval
    [c - N//2, c + N//2] that lies on its axis: for a center outside the
    axis this part ends at the boundary slice ([e - 1] for a center
    beyond the end, [0] for a negative center) when the interval still
    reaches the axis, and the view writes nothing when the interval lies
    entirely outside. *)
Theorem C4_out_of_range_center :
  forall (V U : Type) (norm : ndarray2 V -> ndarray2 U) (path out : string)
         (array : ndarray3 V) (c0 c1 c2 n : Z),
    exists files,
      extract_2d_slices norm path array (Some [c0; c1; c2]) n out = inr files /\
      clipped_to_axis (writes_slice files path out "axial") c0 n (extent0 array) /\
      clipped_to_axis (writes_slice files path out "coronal") c1 n (extent1 array) /\
      clipped_to_axis (writes_slice files path out "sagittal") c2 n (extent2 array).
Proof.
  intros V U norm path out array c0 c1 c2 n.
  eexists. split; [apply extract_2d_slices_views|].
  destruct (writes_slice_iff norm path out array c0 c1 c2 [] n _
              (extract_2d_slices_views norm path array c0 c1 c2 [] n out))
    as (H0 & H1 & H2).
  split; [|split]; now apply window_clipped_to_axis.
Qed.

(** Center 10 on the first axis of a (10,10,10) array with [N = 3]: the
    boundary slice 9 is written, and nothing beyond it. *)
Lemma C4_out_of_range_center_witness :
  exists files,
    extract_2d_slices (fun p : ndarray2 Z => p) "scan.nii"
      (mk_ndarray3 10 10 10 (fun i j k => i + j + k)) (Some [10; 5; 5]) 3 "out"
    = inr files /\
    writes_slice files "scan.nii" "out" "axial" (10 - 1) /\
    forall i, writes_slice files "scan.nii" "out" "axial" i ->
              10 - 3 / 2 <= i <= 10 - 1.
Proof.
  destruct (C4_out_of_range_center Z Z (fun p => p) "scan.nii" "out"
              (mk_ndarray3 10 10 10 (fun i j k => i + j + k)) 10 5 5 3)
    as (files & Hrun & (_ & Hend & _) & _).
  exists files. split; [exact Hrun|].
  apply Hend; vm_compute; (reflexivity || discriminate).
Defined.

(** For an even slice count [N >= 0] a view whose window is not clipped
    by its axis writes [N + 1] slices, those of [N + 1] distinct
    indices; when no view is clipped the call writes [3 * (N + 1)]
    files. *)
Theorem even_count_unclipped :
  forall (V U : Type) (norm : ndarray2 V -> ndarray2 U) (path out : string)
         (array : ndarray3 V) (c0 c1 c2 n : Z),
    0 <= n -> Z.even n = true ->
    exists files,
      extract_2d_slices norm path array (Some [c0; c1; c2]) n out = inr files /\
      (0 <= c0 - n / 2 -> c0 + n / 2 <= extent0 array - 1 ->
       exists w, NoDup w /\ Z.of_nat (List.length w) = n + 1 /\
                 forall i, writes_slice files path out "axial" i <-> In i w) /\
      (0 <= c1 - n / 2 -> c1 + n / 2 <= extent1 array - 1 ->
       exists w, NoDup w /\ Z.of_nat (List.length w) = n + 1 /\
                 forall i, writes_slice files path out "coronal" i <-> In i w) /\
      (0 <= c2 - n / 2 -> c2 + n / 2 <= extent2 array - 1 ->
       exists w, NoDup w /\ Z.of_nat (List.length w) = n + 1 /\
                 forall i, writes_slice files path out "sagittal" i <-> In i w) /\
      (0 <= c0 - n / 2 -> c0 + n / 2 <= extent0 array - 1 ->
       0 <= c1 - n / 2 -> c1 + n / 2 <= extent1 array - 1 ->
       0 <= c2 - n / 2 -> c2 + n / 2 <= extent2 array - 1 ->
       Z.of_nat (List.length (output_files files)) = 3 * (n + 1)).
Proof.
  intros V U norm path out array c0 c1 c2 n Hn Heven.
  pose proof (even_half n Heven) as Hhalf.
  assert (Hlen : forall c e, 0 <= c - n / 2 -> c + n / 2 <= e - 1 ->
                             Z.of_nat (List.length (window c n e)) = n + 1).
  { intros c e Hlo Hhi. rewrite window_length. lia. }
  eexists. split; [apply extract_2d_slices_views|].
  destruct (writes_slice_iff norm path out array c0 c1 c2 [] n _
              (extract_2d_slices_views norm path array c0 c1 c2 [] n out))
    as (H0 & H1 & H2).
  split; [|split; [|split]].
  - intros Hlo Hhi. exists (window c0 n (extent0 array)).
    split; [apply range_NoDup|]. split; [now apply Hlen | exact H0].
  - intros Hlo Hhi. exists (window c1 n (extent1 array)).
    split; [apply range_NoDup|]. split; [now apply Hlen | exact H1].
  - intros Hlo Hhi. exists (window c2 n (extent2 array)).
    split; [apply range_NoDup|]. split; [now apply Hlen | exact H2].
  - intros Hlo0 Hhi0 Hlo1 Hhi1 Hlo2 Hhi2.
    cbn [output_files]. rewrite length_map, !length_app, !view_slices_length.
    pose proof (Hlen c0 (extent0 array) Hlo0 Hhi0).
    pose proof (Hlen c1 (extent1 array) Hlo1 Hhi1).
    pose proof (Hlen c2 (extent2 array) Hlo2 Hhi2). lia.
Qed.

(** [N = 4] around the center (5,5,5) of a (10,10,10) array: 15 files. *)
Lemma even_count_unclipped_witness :
  exists files,
    extract_2d_slices (fun p : ndarray2 Z => p) "scan.nii"
      (mk_ndarray3 10 10 10 (fun i j k => i + j + k)) (Some [5; 5; 5]) 4 "out"
    = inr files /\
    Z.of_nat (List.length (output_files files)) = 3 * (4 + 1).
Proof.
  destruct (even_count_unclipped Z Z (fun p => p) "scan.nii" "out"
              (mk_ndarray3 10 10 10 (fun i j k => i + j + k)) 5 5 5 4
              ltac:(lia) eq_refl)
    as (files & Hrun & _ & _ & _ & Hall).
  exists files. split; [exact Hrun|].
  apply Hall; vm_compute; discriminate.
Defined.

End Emission.

(* ================================================================= *)
(** ** Further properties of resizing *)

(** One axis of the spacing computation: an entry missing in the
    spacing, the size or the target size raises [IndexError]; otherwise
    a zero target entry raises [ZeroDivisionError]. *)
Lemma scaled_spacing_cases {F : Type} `{Arith F} (size : list Z)
      (spacing : list F) (new_size : list Z) (k : nat) :
  scaled_spacing size spacing new_size (Z.of_nat k)
  = if (k <? List.length spacing)%nat && (k <? List.length size)%nat
       && (k <? List.length new_size)%nat
    then if nth k new_size 0 =? 0 then inl ZeroDivisionError
         else inr (mul (nth k spacing one)
                       (quotient (nth k size 0) (nth k new_size 0)))
    else inl IndexError.
Proof.
  unfold scaled_spacing.
  destruct (Nat.ltb_spec k (List.length spacing)) as [Hsp | Hsp]; cbn [andb].
  2:{ now rewrite getitem_out_of_range. }
  rewrite (getitem_nat spacing k one) by assumption. cbn [bind].
  destruct (Nat.ltb_spec k (List.length size)) as [Hsz | Hsz]; cbn [andb].
  2:{ now rewrite getitem_out_of_range. }
  rewrite (getitem_nat size k 0) by assumption. cbn [bind].
  destruct (Nat.ltb_spec k (List.length new_size)) as [Hns | Hns].
  2:{ now rewrite getitem_out_of_range. }
  rewrite (getitem_nat new_size k 0) by assumption. cbn [bind].
  unfold truediv. destruct (nth k new_size 0 =? 0); reflexivity.
Qed.

Lemma axes_used_cases (new_size : list Z) :
  (axes_used new_size = 2%nat /\ (List.length new_size <= 2)%nat) \/
  (axes_used new_size = 3%nat /\ (3 <= List.length new_size)%nat).
Proof.
  unfold axes_used, len.
  destruct (Z.ltb_spec 2 (Z.of_nat (List.length new_size))); [right | left]; lia.
Qed.

(** The spacing computation, axis by axis. *)
Lemma new_spacing_unfold {F : Type} `{Arith F} (size : list Z)
      (spacing : list F) (new_size : list Z) :
  new_spacing size spacing new_size
  = (x0 <- scaled_spacing size spacing new_size (Z.of_nat 0) ;;
     x1 <- scaled_spacing size spacing new_size (Z.of_nat 1) ;;
     x2 <- (if (axes_used new_size =? 3)%nat
            then scaled_spacing size spacing new_size (Z.of_nat 2)
            else ret one) ;;
     ret [x0; x1; x2]).
Proof.
  unfold new_spacing, axes_used.
  destruct (2 <? len new_size); reflexivity.
Qed.

(** Case analysis on what axis [k] of the spacing computation meets. *)
Ltac axis_cases image new_size k Hz :=
  destruct (Nat.ltb_spec k (List.length (GetSpacing image)));
  destruct (Nat.ltb_spec k (List.length (GetSize image)));
  destruct (Nat.ltb_spec k (List.length new_size));
  cbn [andb bind];
  [destruct (Z.eqb_spec (nth k new_size 0) 0) as [Hz | Hz]; cbn [bind ret]
  | .. ].

(** How [resize_image] fails.  With enough axes, a zero among the target
    entries read raises [ZeroDivisionError]; with a target size free of
    zeros, a missing axis (a target size of fewer than two entries, or an
    image with fewer axes than the computation reads) raises
    [IndexError].  Either way nothing has been written. *)
Theorem resize_image_raises :
  forall (F : Type) (A : Arith F) (lib : Library F) (path out : string)
         (fmt : option string) (image : Image F) (new_size : list Z),
    (enough_axes (GetSize image) (GetSpacing image) new_size ->
     (exists k, (k < axes_used new_size)%nat /\ nth k new_size 0 = 0) ->
     resize_image lib path image new_size out fmt = inl ZeroDivisionError) /\
    (~ enough_axes (GetSize image) (GetSpacing image) new_size ->
     Forall (fun b => b <> 0) new_size ->
     resize_image lib path image new_size out fmt = inl IndexError).
Proof.
  intros F A lib path out fmt image new_size.
  assert (Hnth : forall k, Forall (fun b => b <> 0) new_size ->
                           (k < List.length new_size)%nat ->
                           nth k new_size 0 <> 0).
  { intros k Hall Hk. rewrite Forall_forall in Hall. apply Hall. now apply nth_In. }
  unfold resize_image, enough_axes. rewrite new_spacing_unfold.
  rewrite !scaled_spacing_cases.
  destruct (axes_used_cases new_size) as [[Hax Hlen] | [Hax Hlen]];
    rewrite Hax; cbn [Nat.eqb].
  - axis_cases image new_size 0%nat Hz0;
      try (split; [intros Hlens; lia | reflexivity]).
    { split; [reflexivity | intros _ Hall; now apply Hnth in Hz0]. }
    axis_cases image new_size 1%nat Hz1;
      try (split; [intros Hlens; lia | reflexivity]).
    { split; [reflexivity | intros _ Hall; now apply Hnth in Hz1]. }
    split.
    + intros _ (k & Hk & Hzero). destruct k as [|[|k]]; try lia; contradiction.
    + intros Hnot. exfalso. apply Hnot. lia.
  - axis_cases image new_size 0%nat Hz0;
      try (split; [intros Hlens; lia | reflexivity]).
    { split; [reflexivity | intros _ Hall; now apply Hnth in Hz0]. }
    axis_cases image new_size 1%nat Hz1;
      try (split; [intros Hlens; lia | reflexivity]).
    { split; [reflexivity | intros _ Hall; now apply Hnth in Hz1]. }
    axis_cases image new_size 2%nat Hz2;
      try (split; [intros Hlens; lia | reflexivity]).
    { split; [reflexivity | intros _ Hall; now apply Hnth in Hz2]. }
    split.
    + intros _ (k & Hk & Hzero). destruct k as [|[|[|k]]]; try lia; contradiction.
    + intros Hnot. exfalso. apply Hnot. lia.
Qed.

(** The spacing computation returns exactly when every axis it reads is
    there and no target entry it divides by is zero. *)
Lemma new_spacing_returns_iff {F : Type} `{Arith F} (size : list Z)
      (spacing : list F) (new_size : list Z) :
  (exists ns, new_spacing size spacing new_size = inr ns) <->
  (enough_axes size spacing new_size /\
   forall k, (k < axes_used new_size)%nat -> nth k new_size 0 <> 0).
Proof.
  unfold enough_axes. rewrite new_spacing_unfold.
  rewrite !scaled_spacing_cases.
  destruct (axes_used_cases new_size) as [[Hax Hlen] | [Hax Hlen]]; rewrite Hax.
  - cbn [Nat.eqb].
    destruct (Nat.ltb_spec 0 (List.length spacing));
      destruct (Nat.ltb_spec 0 (List.length size));
      destruct (Nat.ltb_spec 0 (List.length new_size));
      cbn [andb bind];
      try (split; [intros (r & Hr); discriminate Hr | intros (Hlens & _); lia]).
    destruct (Z.eqb_spec (nth 0 new_size 0) 0) as [Hz0 | Hz0]; cbn [bind].
    { split; [intros (r & Hr); discriminate Hr|].
      intros (_ & Hnz). exfalso. apply (Hnz 0%nat); [lia | exact Hz0]. }
    destruct (Nat.ltb_spec 1 (List.length spacing));
      destruct (Nat.ltb_spec 1 (List.length size));
      destruct (Nat.ltb_spec 1 (List.length new_size));
      cbn [andb bind];
      try (split; [intros (r & Hr); discriminate Hr | intros (Hlens & _); lia]).
    destruct (Z.eqb_spec (nth 1 new_size 0) 0) as [Hz1 | Hz1]; cbn [bind ret].
    { split; [intros (r & Hr); discriminate Hr|].
      intros (_ & Hnz). exfalso. apply (Hnz 1%nat); [lia | exact Hz1]. }
    split; [intros _ | intros _; eexists; reflexivity].
    split; [lia|]. intros [|[|k]] Hk; try assumption. lia.
  - cbn [Nat.eqb].
    destruct (Nat.ltb_spec 0 (List.length spacing));
      destruct (Nat.ltb_spec 0 (List.length size));
      destruct (Nat.ltb_spec 0 (List.length new_size));
      cbn [andb bind];
      try (split; [intros (r & Hr); discriminate Hr | intros (Hlens & _); lia]).
    destruct (Z.eqb_spec (nth 0 new_size 0) 0) as [Hz0 | Hz0]; cbn [bind].
    { split; [intros (r & Hr); discriminate Hr|].
      intros (_ & Hnz). exfalso. apply (Hnz 0%nat); [lia | exact Hz0]. }
    destruct (Nat.ltb_spec 1 (List.length spacing));
      destruct (Nat.ltb_spec 1 (List.length size));
      destruct (Nat.ltb_spec 1 (List.length new_size));
      cbn [andb bind];
      try (split; [intros (r & Hr); discriminate Hr | intros (Hlens & _); lia]).
    destruct (Z.eqb_spec (nth 1 new_size 0) 0) as [Hz1 | Hz1]; cbn [bind].
    { split; [intros (r & Hr); discriminate Hr|].
      intros (_ & Hnz). exfalso. apply (Hnz 1%nat); [lia | exact Hz1]. }
    destruct (Nat.ltb_spec 2 (List.length spacing));
      destruct (Nat.ltb_spec 2 (List.length size));
      destruct (Nat.ltb_spec 2 (List.length new_size));
      cbn [andb bind];
      try (split; [intros (r & Hr); discriminate Hr | intros (Hlens & _); lia]).
    destruct (Z.eqb_spec (nth 2 new_size 0) 0) as [Hz2 | Hz2]; cbn [bind ret].
    { split; [intros (r & Hr); discriminate Hr|].
      intros (_ & Hnz). exfalso. apply (Hnz 2%nat); [lia | exact Hz2]. }
    split; [intros _ | intros _; eexists; reflexivity].
    split; [lia|]. intros [|[|[|k]]] Hk; try assumption. lia.
Qed.

(** When [resize_image] returns.  The call returns exactly when the
    target size has at least two entries, the image has a size and a
    spacing for each axis read (two axes, three when the target size has
    more than two entries), the target entries read are not zero, and
    the three library calls return: [sitk.Resample] on the request built
    from the computed spacing, [sitk.WriteImage] on the image path and
    [json.dump] on the sidecar path. *)
Theorem resize_image_returns_iff :
  forall (F : Type) (A : Arith F) (lib : Library F) (path out : string)
         (fmt : option string) (image : Image F) (new_size : list Z),
    (exists r, resize_image lib path image new_size out fmt = inr r) <->
    (enough_axes (GetSize image) (GetSpacing image) new_size /\
     (forall k, (k < axes_used new_size)%nat -> nth k new_size 0 <> 0) /\
     exists spacing resized_image,
       new_spacing (GetSize image) (GetSpacing image) new_size = inr spacing /\
       sitk_Resample lib image (resample_request image new_size spacing)
       = inr resized_image /\
       sitk_WriteImage lib resized_image (resized_image_path path out fmt)
       = inr tt /\
       write_json lib (resized_meta_path path out) (sidecar_of image) = inr tt).
Proof.
  intros F A lib path out fmt image new_size. split.
  - intros (r & Hr). apply resize_image_inv in Hr
      as ((spacing & img & Hsp & Hreq & Hres & Hwrite & Hdump) & Hmeta & Hip & Hmp).
    destruct (proj1 (new_spacing_returns_iff (GetSize image) (GetSpacing image)
                       new_size)) as (Haxes & Hnz); [now exists spacing|].
    split; [exact Haxes|]. split; [exact Hnz|].
    exists spacing, img. rewrite <- Hreq, <- Hip, <- Hmp, <- Hmeta. auto.
  - intros (_ & _ & spacing & img & Hsp & Hres & Hwrite & Hdump).
    exists (mk_resized (resample_request image new_size spacing)
                       (sidecar_of image) (resized_image_path path out fmt)
                       (resized_meta_path path out)).
    apply resize_image_inv.
    cbn [resample metadata output_image_path output_meta_path].
    split; [|repeat split]. exists spacing, img. auto.
Qed.

(* ================================================================= *)
(** ** Properties of the dispatcher *)

Section Dispatch.
Local Open Scope string_scope.

Lemma take_drop (k : nat) (s : string) : Str.take k s ++ Str.drop k s = s.
Proof.
  revert s. induction k as [|k IH]; intros s.
  - now destruct s.
  - destruct s as [|c s]; cbn; [reflexivity | now rewrite IH].
Qed.

Lemma ends_with_spec (suffix s : string) :
  ends_with suffix s = true <-> exists stem, s = stem ++ suffix.
Proof.
  unfold ends_with. split.
  - destruct (Nat.leb_spec (String.length suffix) (String.length s)); [|discriminate].
    intros Heq. apply String.eqb_eq in Heq.
    set (k := (String.length s - String.length suffix)%nat) in *.
    exists (Str.take k s). rewrite <- Heq. symmetry. apply take_drop.
  - intros (stem & ->). rewrite string_app_length.
    destruct (Nat.leb_spec (String.length suffix)
                (String.length stem + String.length suffix)); [|lia].
    replace (String.length stem + String.length suffix - String.length suffix)%nat
      with (String.length stem) by lia.
    rewrite drop_app. apply String.eqb_refl.
Qed.

(** The names folder mode accepts are those that end with one of the
    four suffixes. *)
Lemma is_image_file_spec (filename : string) :
  is_image_file filename = true <->
  exists stem,
    filename = stem ++ ".nii" \/ filename = stem ++ ".nii.gz" \/
    filename = stem ++ ".mha" \/ filename = stem ++ ".mhd".
Proof.
  unfold is_image_file, image_suffixes. cbn [existsb].
  rewrite !orb_true_iff, !ends_with_spec. split.
  - intros [(stem & Hs) | [(stem & Hs) | [(stem & Hs) | [(stem & Hs) | Hf]]]];
      try discriminate Hf; exists stem; tauto.
  - intros (stem & [Hs | [Hs | [Hs | Hs]]]).
    + left. now exists stem.
    + right. left. now exists stem.
    + right. right. left. now exists stem.
    + right. right. right. left. now exists stem.
Qed.

End Dispatch.

Section DispatchRuns.
Local Open Scope string_scope.

Context {F : Type} {A : Arith F} {V U : Type}.
Variable listdir : option string -> failure + list string.
Variable lib : Library F.
Variable ReadImage : string -> failure + Image F.
Variable ReadArray : string -> failure + ndarray3 V.
Variable norm : ndarray2 V -> ndarray2 U.

Lemma main_per_file (args : Namespace) :
  args_command args = "resize" \/ args_command args = "extract2D" ->
  main listdir lib ReadImage ReadArray norm args
  = run listdir (per_file lib ReadImage ReadArray norm args) args.
Proof.
  unfold main, per_file. intros [-> | ->]; reflexivity.
Qed.

Lemma for_files_all (op : string -> failure + outcome F U) (d : string)
      (listing : list string) (outs : list (outcome F U)) :
  Forall2 (fun filename o => op (Posixpath.join d filename) = inr o)
          (filter is_image_file listing) outs ->
  for_files op (Some d) listing = (outs, None).
Proof.
  revert outs. induction listing as [|filename rest IH]; intros outs Hall.
  - cbn in Hall. inversion Hall. reflexivity.
  - cbn [filter] in Hall. cbn [for_files join_folder].
    destruct (is_image_file filename).
    + inversion Hall as [|f o fs os Hop Hrest]; subst.
      rewrite Hop, (IH os Hrest). reflexivity.
    + now apply IH.
Qed.

Lemma for_files_abort (op : string -> failure + outcome F U) (d : string)
      (pre post : list string) (bad : string) (outs : list (outcome F U))
      (e : failure) :
  Forall2 (fun filename o => op (Posixpath.join d filename) = inr o)
          (filter is_image_file pre) outs ->
  is_image_file bad = true ->
  op (Posixpath.join d bad) = inl e ->
  for_files op (Some d) (pre ++ bad :: post) = (outs, Some e).
Proof.
  intros Hall Hbad Hop. revert outs Hall.
  induction pre as [|filename rest IH]; intros outs Hall.
  - cbn in Hall. inversion Hall. cbn [app for_files join_folder].
    now rewrite Hbad, Hop.
  - cbn [filter] in Hall. cbn [app for_files join_folder].
    destruct (is_image_file filename).
    + inversion Hall as [|f o fs os Hop' Hrest]; subst.
      rewrite Hop', (IH os Hrest). reflexivity.
    + now apply IH.
Qed.

Lemma for_files_no_folder (op : string -> failure + outcome F U)
      (listing : list string) :
  for_files op None listing
  = ([], if existsb is_image_file listing then Some TypeError else None).
Proof.
  induction listing as [|filename rest IH]; [reflexivity|].
  cbn [for_files existsb join_folder].
  destruct (is_image_file filename); [reflexivity | exact IH].
Qed.

(** Folder mode, when every call returns: the files of the listing whose
    name is accepted are processed one by one in the order of the
    listing, the others are skipped, and the run ends without an
    exception. *)
Theorem folder_mode_processes_accepted_files :
  forall (args : Namespace) (d : string) (listing : list string)
         (outs : list (outcome F U)),
    args_command args = "resize" \/ args_command args = "extract2D" ->
    truthy (args_imagePath args) = false ->
    args_folderPath args = Some d ->
    listdir (Some d) = inr listing ->
    Forall2 (fun filename o =>
               per_file lib ReadImage ReadArray norm args (Posixpath.join d filename)
               = inr o)
            (filter is_image_file listing) outs ->
    main listdir lib ReadImage ReadArray norm args = (outs, None).
Proof.
  intros args d listing outs Hcmd Himg Hfolder Hlist Hall.
  rewrite main_per_file by assumption. unfold run.
  rewrite Himg, Hfolder, Hlist. now apply for_files_all.
Qed.

(** Folder mode, when a call raises: the run ends with that exception;
    what the calls on the earlier accepted files did stays, and no file
    after the failing one is processed, whatever follows in the
    listing. *)
Theorem folder_mode_stops_at_first_failure :
  forall (args : Namespace) (d : string) (pre post : list string)
         (bad : string) (outs : list (outcome F U)) (e : failure),
    args_command args = "resize" \/ args_command args = "extract2D" ->
    truthy (args_imagePath args) = false ->
    args_folderPath args = Some d ->
    listdir (Some d) = inr (pre ++ bad :: post)%list ->
    Forall2 (fun filename o =>
               per_file lib ReadImage ReadArray norm args (Posixpath.join d filename)
               = inr o)
            (filter is_image_file pre) outs ->
    is_image_file bad = true ->
    per_file lib ReadImage ReadArray norm args (Posixpath.join d bad) = inl e ->
    main listdir lib ReadImage ReadArray norm args = (outs, Some e).
Proof.
  intros args d pre post bad outs e Hcmd Himg Hfolder Hlist Hall Hbad Hop.
  rewrite main_per_file by assumption. unfold run.
  rewrite Himg, Hfolder, Hlist. now apply for_files_abort.
Qed.

(** An empty [--imagePath] counts as no image path: the run falls into
    folder mode with no folder, lists the current directory, and raises
    [TypeError] on joining the first accepted file name to [None]; when
    the current directory holds no accepted file, it does nothing. *)
Theorem empty_image_path_runs_folder_mode :
  forall (args : Namespace) (listing : list string),
    args_command args = "resize" \/ args_command args = "extract2D" ->
    args_imagePath args = Some "" ->
    args_folderPath args = None ->
    listdir None = inr listing ->
    main listdir lib ReadImage ReadArray norm args
    = ([], if existsb is_image_file listing then Some TypeError else None).
Proof.
  intros args listing Hcmd Himg Hfolder Hlist.
  rewrite main_per_file by assumption. unfold run.
  rewrite Himg, Hfolder, Hlist. cbn [truthy]. apply for_files_no_folder.
Qed.

End DispatchRuns.

Section DispatchWitnesses.
Local Open Scope string_scope.

(** A folder with one file that is not an image and two that are. *)
Lemma folder_mode_processes_accepted_files_witness :
  exists o1 o2,
    main (F := Q) (H := exact)
         (fun _ => inr ["notes.txt"; "a.nii"; "b.mha"])
         permissive_library
         (fun _ => inl EnvError)
         (fun _ => inr (mk_ndarray3 4 4 4 (fun i j k => i + j + k)))
         (fun p : ndarray2 Z => p)
         (mk_Namespace "extract2D" None (Some "/data") [] "/out" None None 1)
    = ([o1; o2], None).
Proof.
  eexists. eexists.
  apply (folder_mode_processes_accepted_files
           (fun _ => inr ["notes.txt"; "a.nii"; "b.mha"])
           permissive_library
           (fun _ => inl EnvError)
           (fun _ => inr (mk_ndarray3 4 4 4 (fun i j k => i + j + k)))
           (fun p : ndarray2 Z => p)
           (mk_Namespace "extract2D" None (Some "/data") [] "/out" None None 1)
           "/data" ["notes.txt"; "a.nii"; "b.mha"]);
    try reflexivity.
  - right. reflexivity.
  - change (filter is_image_file ["notes.txt"; "a.nii"; "b.mha"])
      with ["a.nii"; "b.mha"].
    constructor; [reflexivity|]. constructor; [reflexivity|]. constructor.
Defined.

(** The second of three images cannot be read. *)
Lemma folder_mode_stops_at_first_failure_witness :
  exists o1,
    main (F := Q) (H := exact)
         (fun _ => inr ["a.nii"; "bad.mha"; "c.nii"])
         permissive_library
         (fun _ => inl EnvError)
         (fun p => if String.eqb p "/data/bad.mha" then inl EnvError
                   else inr (mk_ndarray3 4 4 4 (fun i j k => i + j + k)))
         (fun p : ndarray2 Z => p)
         (mk_Namespace "extract2D" None (Some "/data") [] "/out" None None 1)
    = ([o1], Some EnvError).
Proof.
  eexists.
  apply (folder_mode_stops_at_first_failure
           (fun _ => inr ["a.nii"; "bad.mha"; "c.nii"])
           permissive_library
           (fun _ => inl EnvError)
           (fun p => if String.eqb p "/data/bad.mha" then inl EnvError
                     else inr (mk_ndarray3 4 4 4 (fun i j k => i + j + k)))
           (fun p : ndarray2 Z => p)
           (mk_Namespace "extract2D" None (Some "/data") [] "/out" None None 1)
           "/data" ["a.nii"] ["c.nii"] "bad.mha");
    try reflexivity.
  - right. reflexivity.
  - change (filter is_image_file ["a.nii"]) with ["a.nii"].
    constructor; [reflexivity|]. constructor.
Defined.

(** [--imagePath ""] in a directory that holds an image. *)
Lemma empty_image_path_runs_folder_mode_witness :
  main (F := Q) (H := exact) (V := Z) (U := Z)
       (fun _ => inr ["a.nii"])
       permissive_library
       (fun _ => inl EnvError) (fun _ => inl EnvError) (fun p => p)
       (mk_Namespace "resize" (Some "") None [32; 32; 16] "/out" None None 1)
  = ([], Some TypeError).
Proof.
  apply (empty_image_path_runs_folder_mode
           (fun _ => inr ["a.nii"])
           permissive_library
           (fun _ => inl EnvError) (fun _ => inl EnvError) (fun p => p)
           (mk_Namespace "resize" (Some "") None [32; 32; 16] "/out" None None 1)
           ["a.nii"]);
    try reflexivity.
  left. reflexivity.
Defined.

End DispatchWitnesses.

Section FolderNames.
Local Open Scope string_scope.

Lemma endswith_app_sep (d : string) :
  Str.endswith "/" (d ++ "/") = true.
Proof.
  induction d as [|c d IH]; [reflexivity|].
  cbn [append]. destruct d as [|c' d]; [reflexivity | exact IH].
Qed.

(** Joining a folder and a file name puts a directory prefix before the
    file name. *)
Lemma join_dir_prefix (d filename : string) :
  Str.startswith Posixpath.sep filename = false ->
  exists dir,
    is_dir_prefix dir = true /\ Posixpath.join d filename = dir ++ filename.
Proof.
  intros Hstart. unfold Posixpath.join. rewrite Hstart.
  destruct (String.eqb d "" || Str.endswith Posixpath.sep d) eqn:Hd.
  - exists d. split; [exact Hd | reflexivity].
  - exists (d ++ "/"). split.
    + unfold is_dir_prefix. rewrite endswith_app_sep. apply orb_true_r.
    + now rewrite string_app_assoc.
Qed.

Lemma startswith_stem (stem rest : string) :
  occurs "/" stem = false ->
  Str.startswith Posixpath.sep (stem ++ "." ++ rest) = false.
Proof.
  destruct stem as [|c stem]; [reflexivity|].
  cbn [append Str.startswith occurs]. intros Hocc.
  apply orb_false_iff in Hocc as [Hc _]. exact Hc.
Qed.

Lemma all_dots_app (a b : string) :
  all_dots (a ++ b) = all_dots a && all_dots b.
Proof.
  induction a as [|c a IH]; [reflexivity|].
  cbn. now rewrite IH, andb_assoc.
Qed.

Lemma base_name_of_stem (dir stem suffix : string) :
  is_dir_prefix dir = true ->
  occurs "/" stem = false -> all_dots stem = false ->
  occurs "." suffix = false -> occurs "/" suffix = false ->
  base_name_of (dir ++ stem ++ "." ++ suffix) = stem.
Proof.
  intros Hdir Hstem Hnondot Hdot Hsep. unfold base_name_of.
  rewrite basename_dir.
  2: assumption.
  2:{ rewrite occurs_app, Hstem. cbn. exact Hsep. }
  now rewrite (splitext_suffix "" stem suffix ltac:(reflexivity)
                 Hstem Hnondot Hdot Hsep
               : Posixpath.splitext (stem ++ "." ++ suffix) = (stem, "." ++ suffix)).
Qed.

(** The two paths a resize that returns has written to, for a source
    [dir ++ stem ++ "." ++ suffix] and any choice of format. *)
Lemma resize_image_stem_paths {F : Type} `{Arith F} (lib : Library F)
      (dir stem suffix out : string) (fmt : option string)
      (image : Image F) (new_size : list Z) (r : resized F) :
  is_dir_prefix dir = true ->
  occurs "/" stem = false -> all_dots stem = false ->
  occurs "." suffix = false -> occurs "/" suffix = false ->
  resize_image lib (dir ++ stem ++ "." ++ suffix) image new_size out fmt = inr r ->
  output_image_path r
  = Posixpath.join out (stem ++ "_resized."
                             ++ match fmt with Some f => f | None => suffix end) /\
  output_meta_path r = Posixpath.join out (stem ++ "_resized_meta.json").
Proof.
  intros Hdir Hstem Hnondot Hdot Hsep Hr.
  apply resize_image_inv in Hr as (_ & _ & -> & ->).
  unfold resized_image_path, resized_meta_path.
  rewrite base_name_of_stem by assumption.
  split; [|reflexivity].
  destruct fmt as [f|]; [reflexivity|].
  unfold resolve_output_format. rewrite splitext_suffix by assumption.
  cbn [snd].
  now rewrite (slice_from_app "." suffix
               : Str.slice_from ("." ++ suffix) 1 = suffix).
Qed.

(** Output file names.  For a source [dir ++ stem ++ "." ++ suffix]
    (with [suffix] free of dots and separators, and [stem] a file name
    that is not made of dots only) and no explicit format, a resize that
    returns has had [sitk.WriteImage] store the resampled image at
    [<stem>_resized.<suffix>] and [json.dump] the dictionary at
    [<stem>_resized_meta.json], both under the output directory, and
    these are the two paths it returns. *)
Theorem resize_output_paths :
  forall (F : Type) (A : Arith F) (lib : Library F)
         (dir stem suffix out : string) (image : Image F) (new_size : list Z)
         (r : resized F),
    is_dir_prefix dir = true ->
    occurs "/" stem = false -> all_dots stem = false ->
    occurs "." suffix = false -> occurs "/" suffix = false ->
    resize_image lib (dir ++ stem ++ "." ++ suffix) image new_size out None = inr r ->
    output_image_path r = Posixpath.join out (stem ++ "_resized." ++ suffix) /\
    output_meta_path r = Posixpath.join out (stem ++ "_resized_meta.json") /\
    exists resized_image,
      sitk_Resample lib image (resample r) = inr resized_image /\
      sitk_WriteImage lib resized_image
        (Posixpath.join out (stem ++ "_resized." ++ suffix)) = inr tt /\
      write_json lib (Posixpath.join out (stem ++ "_resized_meta.json"))
                 (metadata r) = inr tt.
Proof.
  intros F A lib dir stem suffix out image new_size r
         Hdir Hstem Hnondot Hdot Hsep Hr.
  destruct (resize_image_stem_paths lib dir stem suffix out None image new_size r)
    as (Himg & Hmeta); try assumption.
  apply resize_image_inv in Hr
    as ((spacing & img & _ & _ & Hres & Hwrite & Hdump) & _).
  rewrite Himg in Hwrite. rewrite Hmeta in Hdump.
  split; [exact Himg|]. split; [exact Hmeta|].
  exists img. auto.
Qed.

(** A [.nii.gz] file in folder mode.  Every name [stem.nii.gz] is
    accepted.  Resized without an explicit format, its image goes to
    [<stem>.nii_resized.gz] and its sidecar to
    [<stem>.nii_resized_meta.json]: the format is [gz] and [.nii] stays
    in the base name.  These are the paths of every call that returns;
    and when [sitk.WriteImage] raises on [<stem>.nii_resized.gz], the
    call raises that exception. *)
Theorem folder_nii_gz_outputs :
  forall (F : Type) (A : Arith F) (lib : Library F) (d stem out : string)
         (image : Image F) (new_size : list Z),
    occurs "/" stem = false ->
    is_image_file (stem ++ ".nii.gz") = true /\
    (forall r,
        resize_image lib (Posixpath.join d (stem ++ ".nii.gz")) image new_size
                     out None = inr r ->
        output_image_path r = Posixpath.join out (stem ++ ".nii_resized.gz") /\
        output_meta_path r
        = Posixpath.join out (stem ++ ".nii_resized_meta.json")) /\
    (forall spacing resized_image e,
        new_spacing (GetSize image) (GetSpacing image) new_size = inr spacing ->
        sitk_Resample lib image (resample_request image new_size spacing)
        = inr resized_image ->
        sitk_WriteImage lib resized_image
          (Posixpath.join out (stem ++ ".nii_resized.gz")) = inl e ->
        resize_image lib (Posixpath.join d (stem ++ ".nii.gz")) image new_size
                     out None = inl e).
Proof.
  intros F A lib d stem out image new_size Hstem.
  assert (Hname : stem ++ ".nii.gz" = (stem ++ ".nii") ++ "." ++ "gz")
    by now rewrite string_app_assoc.
  destruct (join_dir_prefix d (stem ++ ".nii.gz")) as (dir & Hdir & Hjoin).
  { apply (startswith_stem stem "nii.gz" Hstem). }
  assert (Hsep : occurs "/" (stem ++ ".nii") = false)
    by (rewrite occurs_app, Hstem; reflexivity).
  assert (Hnondot : all_dots (stem ++ ".nii") = false)
    by (rewrite all_dots_app; apply andb_false_r).
  split; [|split].
  - apply is_image_file_spec. exists stem. tauto.
  - intros r Hr. rewrite Hjoin, Hname in Hr.
    destruct (resize_image_stem_paths lib dir (stem ++ ".nii") "gz" out None
                image new_size r Hdir Hsep Hnondot eq_refl eq_refl Hr)
      as (Himg & Hmeta).
    rewrite Himg, Hmeta, !string_app_assoc. split; reflexivity.
  - intros spacing img e Hsp Hres Hwrite.
    unfold resize_image. rewrite Hsp. cbn [bind].
    fold (resample_request image new_size spacing). rewrite Hres. cbn [bind].
    fold (base_name_of (Posixpath.join d (stem ++ ".nii.gz"))).
    rewrite Hjoin, Hname.
    rewrite base_name_of_stem by (assumption || reflexivity).
    unfold resolve_output_format.
    rewrite splitext_suffix by (assumption || reflexivity). cbn [snd].
    rewrite (slice_from_app "." "gz" : Str.slice_from ("." ++ "gz") 1 = "gz").
    rewrite string_app_assoc. cbn [append] in Hwrite |- *.
    rewrite Hwrite. reflexivity.
Qed.

(** Source files that differ only in their extension share their
    outputs.  Two sources [stem.s1] and [stem.s2] of one folder whose
    resizes both return were both given the sidecar
    [<stem>_resized_meta.json], and with an explicit output format also
    the same image file: the later call has overwritten what the earlier
    one wrote. *)
Theorem same_stem_resize_outputs_collide :
  forall (F : Type) (A : Arith F) (lib : Library F) (d stem s1 s2 out : string)
         (fmt : option string) (image1 image2 : Image F) (new_size : list Z)
         (r1 r2 : resized F),
    occurs "/" stem = false -> all_dots stem = false ->
    occurs "." s1 = false -> occurs "/" s1 = false ->
    occurs "." s2 = false -> occurs "/" s2 = false ->
    resize_image lib (Posixpath.join d (stem ++ "." ++ s1)) image1 new_size out fmt
    = inr r1 ->
    resize_image lib (Posixpath.join d (stem ++ "." ++ s2)) image2 new_size out fmt
    = inr r2 ->
    output_meta_path r1 = output_meta_path r2 /\
    (forall f, fmt = Some f -> output_image_path r1 = output_image_path r2).
Proof.
  intros F A lib d stem s1 s2 out fmt image1 image2 new_size r1 r2
         Hstem Hnondot Hdot1 Hsep1 Hdot2 Hsep2.
  destruct (join_dir_prefix d (stem ++ "." ++ s1)) as (dir1 & Hdir1 & ->);
    [now apply startswith_stem|].
  destruct (join_dir_prefix d (stem ++ "." ++ s2)) as (dir2 & Hdir2 & ->);
    [now apply startswith_stem|].
  intros Hr1 Hr2.
  destruct (resize_image_stem_paths lib dir1 stem s1 out fmt image1 new_size r1)
    as (Himg1 & Hmeta1); try assumption.
  destruct (resize_image_stem_paths lib dir2 stem s2 out fmt image2 new_size r2)
    as (Himg2 & Hmeta2); try assumption.
  split.
  - now rewrite Hmeta1, Hmeta2.
  - intros f ->. now rewrite Himg1, Himg2.
Qed.

(** The same for slice extraction: two sources [stem.s1] and [stem.s2]
    of one folder whose arrays have the same shape are written, for the
    same location and count, to the very same PNG files. *)
Theorem same_stem_slices_collide :
  forall (V U : Type) (norm : ndarray2 V -> ndarray2 U)
         (d stem s1 s2 out : string) (array1 array2 : ndarray3 V)
         (location : option (list Z)) (n : Z) (files1 files2 : extraction),
    occurs "/" stem = false -> all_dots stem = false ->
    occurs "." s1 = false -> occurs "/" s1 = false ->
    occurs "." s2 = false -> occurs "/" s2 = false ->
    Np.shape array1 = Np.shape array2 ->
    extract_2d_slices norm (Posixpath.join d (stem ++ "." ++ s1)) array1
                      location n out = inr files1 ->
    extract_2d_slices norm (Posixpath.join d (stem ++ "." ++ s2)) array2
                      location n out = inr files2 ->
    output_files files1 = output_files files2.
Proof.
  intros V U norm d stem s1 s2 out array1 array2 location n files1 files2
         Hstem Hnondot Hdot1 Hsep1 Hdot2 Hsep2 Hshape Hrun1 Hrun2.
  apply extract_output_files in Hrun1 as (-> & _).
  apply extract_output_files in Hrun2 as (-> & _).
  destruct (join_dir_prefix d (stem ++ "." ++ s1)) as (dir1 & Hdir1 & ->);
    [now apply startswith_stem|].
  destruct (join_dir_prefix d (stem ++ "." ++ s2)) as (dir2 & Hdir2 & ->);
    [now apply startswith_stem|].
  rewrite !base_name_of_stem by assumption.
  unfold default_location. rewrite Hshape.
  unfold Np.shape in Hshape. injection Hshape as -> -> ->. reflexivity.
Qed.

End FolderNames.

Section FolderExtraction.
Local Open Scope string_scope.

Context {F : Type} {A : Arith F} {V U : Type}.
Variable listdir : option string -> failure + list string.
Variable lib : Library F.
Variable ReadImage : string -> failure + Image F.
Variable ReadArray : string -> failure + ndarray3 V.
Variable norm : ndarray2 V -> ndarray2 U.

(** [extract2D] over a folder never aborts on its own account: when the
    folder can be listed, every accepted file can be read as a rank-3
    array, and the location is left out or has at least three entries,
    the run ends without an exception after one extraction per accepted
    file, whatever the arrays, the location and the count. *)
Theorem folder_extraction_completes :
  forall (args : Namespace) (d : string) (listing : list string),
    args_command args = "extract2D" ->
    truthy (args_imagePath args) = false ->
    args_folderPath args = Some d ->
    listdir (Some d) = inr listing ->
    (forall filename,
        In filename listing -> is_image_file filename = true ->
        exists array, ReadArray (Posixpath.join d filename) = inr array) ->
    (forall l, args_location args = Some l -> (3 <= List.length l)%nat) ->
    exists outs,
      main listdir lib ReadImage ReadArray norm args = (outs, None) /\
      List.length outs = List.length (filter is_image_file listing) /\
      Forall (fun o => exists e, o = Extracted e) outs.
Proof.
  intros args d listing Hcmd Himg Hfolder Hlist Hread Hloc.
  assert (Hop : forall filename,
             In filename listing -> is_image_file filename = true ->
             exists e, per_file lib ReadImage ReadArray norm args
                                (Posixpath.join d filename) = inr (Extracted e)).
  { intros filename Hin Hacc. unfold per_file. rewrite Hcmd.
    change (String.eqb "extract2D" "resize") with false. cbv iota.
    unfold run_extract.
    destruct (Hread filename Hin Hacc) as (array & ->).
    destruct (args_location args) as [l|] eqn:Hl.
    - specialize (Hloc l eq_refl).
      destruct l as [|c0 [|c1 [|c2 rest]]]; cbn [List.length] in Hloc; try lia.
      rewrite extract_2d_slices_views. eexists. reflexivity.
    - change (extract_2d_slices norm (Posixpath.join d filename) array None
                (args_N args) (args_outputPath args))
        with (extract_2d_slices norm (Posixpath.join d filename) array
                (Some [extent0 array / 2; extent1 array / 2; extent2 array / 2])
                (args_N args) (args_outputPath args)).
      rewrite extract_2d_slices_views. eexists. reflexivity. }
  assert (Hall : exists outs,
             Forall2 (fun filename o =>
                        per_file lib ReadImage ReadArray norm args
                                 (Posixpath.join d filename) = inr o)
                     (filter is_image_file listing) outs /\
             Forall (fun o => exists e, o = Extracted e) outs).
  { clear Hlist. induction listing as [|filename rest IH].
    - exists []. split; constructor.
    - destruct IH as (outs & Hfa & Hex).
      { intros f Hin. apply Hread. now right. }
      { intros f Hin. apply Hop. now right. }
      cbn [filter]. destruct (is_image_file filename) eqn:Hacc.
      + destruct (Hop filename (or_introl eq_refl) Hacc) as (e & He).
        exists (Extracted e :: outs). split; constructor; eauto.
      + exists outs. now split. }
  destruct Hall as (outs & Hfa & Hex).
  exists outs. split; [|split].
  - rewrite main_per_file by (right; exact Hcmd). unfold run.
    rewrite Himg, Hfolder, Hlist. now apply for_files_all.
  - symmetry. eapply Forall2_length; eassumption.
  - exact Hex.
Qed.

End FolderExtraction.

Section FurtherWitnesses.
Local Open Scope string_scope.

(** Three readable volumes and a text file, center (1,2,3,9), [N = 3]. *)
Lemma folder_extraction_completes_witness :
  exists outs,
    main (F := Q) (H := exact)
         (fun _ => inr ["a.nii"; "b.nii.gz"; "notes.txt"; "c.mhd"])
         permissive_library
         (fun _ => inl EnvError)
         (fun _ => inr (mk_ndarray3 4 4 4 (fun i j k => i + j + k)))
         (fun p : ndarray2 Z => p)
         (mk_Namespace "extract2D" None (Some "/data") [] "/out" None
                       (Some [1; 2; 3; 9]) 3)
    = (outs, None) /\
    List.length outs
    = List.length (filter is_image_file ["a.nii"; "b.nii.gz"; "notes.txt"; "c.mhd"]) /\
    Forall (fun o => exists e, o = Extracted e) outs.
Proof.
  apply (folder_extraction_completes
           (fun _ => inr ["a.nii"; "b.nii.gz"; "notes.txt"; "c.mhd"])
           permissive_library
           (fun _ => inl EnvError)
           (fun _ => inr (mk_ndarray3 4 4 4 (fun i j k => i + j + k)))
           (fun p : ndarray2 Z => p)
           (mk_Namespace "extract2D" None (Some "/data") [] "/out" None
                         (Some [1; 2; 3; 9]) 3)
           "/data" ["a.nii"; "b.nii.gz"; "notes.txt"; "c.mhd"]);
    try reflexivity.
  - intros filename _ _. eexists. reflexivity.
  - intros l Hl. injection Hl as <-. cbn. lia.
Defined.

(** The names folder mode accepts: a file is processed exactly when its
    name ends with [.nii], [.nii.gz], [.mha] or [.mhd], compared
    character by character. *)
Theorem accepted_names :
  forall filename : string,
    is_image_file filename = true <->
    exists stem,
      filename = stem ++ ".nii" \/ filename = stem ++ ".nii.gz" \/
      filename = stem ++ ".mha" \/ filename = stem ++ ".mhd".
Proof. exact is_image_file_spec. Qed.

Lemma accepted_names_witness :
  is_image_file ("brain.v2" ++ ".nii.gz") = true.
Proof.
  apply (proj2 (accepted_names ("brain.v2" ++ ".nii.gz"))).
  exists "brain.v2". right. left. reflexivity.
Defined.

(** A zero in the target size, and a target size of one entry. *)
Lemma resize_image_raises_witness :
  resize_image checking_library "scan.nii"
    (mk_Image [64; 64; 32] [1; 1; 2]%float [] [] 8) [32; 32; 0] "/out" None
  = inl ZeroDivisionError /\
  resize_image checking_library "scan.nii"
    (mk_Image [64; 64; 32] [1; 1; 2]%float [] [] 8) [32] "/out" None
  = inl IndexError.
Proof.
  split.
  - apply (proj1 (resize_image_raises float binary64 checking_library
                    "scan.nii" "/out" None
                    (mk_Image [64; 64; 32] [1; 1; 2]%float [] [] 8) [32; 32; 0])).
    + unfold enough_axes. cbn. lia.
    + exists 2%nat. split; [cbn; lia | reflexivity].
  - apply (proj2 (resize_image_raises float binary64 checking_library
                    "scan.nii" "/out" None
                    (mk_Image [64; 64; 32] [1; 1; 2]%float [] [] 8) [32])).
    + unfold enough_axes. cbn. lia.
    + repeat constructor; lia.
Defined.

(** A (64,64,32) volume resized to [32,32,16] with a library that checks
    its arguments. *)
Lemma resize_image_returns_iff_witness :
  exists r,
    resize_image checking_library "scan.nii"
      (mk_Image [64; 64; 32] [1; 1; 2]%float [1; 0; 0; 0; 1; 0; 0; 0; 1]%float
                [0; 0; 0]%float 8)
      [32; 32; 16] "/out" None = inr r.
Proof.
  apply (proj2 (resize_image_returns_iff float binary64 checking_library
                  "scan.nii" "/out" None
                  (mk_Image [64; 64; 32] [1; 1; 2]%float
                            [1; 0; 0; 0; 1; 0; 0; 0; 1]%float [0; 0; 0]%float 8)
                  [32; 32; 16])).
  split; [|split].
  - unfold enough_axes. cbn. lia.
  - intros [|[|[|k]]] Hk; cbn in *; lia.
  - eexists. eexists. split; [vm_compute; reflexivity|].
    split; [vm_compute; reflexivity|]. split; reflexivity.
Defined.

(** Source [scan.nii], output directory [/out]. *)
Lemma resize_output_paths_witness :
  exists r,
    resize_image checking_library ("" ++ "scan" ++ "." ++ "nii")
      (mk_Image [64; 64; 32] [1; 1; 2]%float [1; 0; 0; 0; 1; 0; 0; 0; 1]%float
                [0; 0; 0]%float 8)
      [32; 32; 16] "/out" None = inr r /\
    output_image_path r = "/out/scan_resized.nii" /\
    output_meta_path r = "/out/scan_resized_meta.json".
Proof.
  eexists. split; [vm_compute; reflexivity|].
  match goal with
  | |- output_image_path ?r = _ /\ _ =>
      destruct (resize_output_paths float binary64 checking_library
                  "" "scan" "nii" "/out"
                  (mk_Image [64; 64; 32] [1; 1; 2]%float
                            [1; 0; 0; 0; 1; 0; 0; 0; 1]%float [0; 0; 0]%float 8)
                  [32; 32; 16] r
                  eq_refl eq_refl eq_refl eq_refl eq_refl
                  ltac:(vm_compute; reflexivity))
        as (Himg & Hmeta & _)
  end.
  split; [exact Himg | exact Hmeta].
Defined.

(** [brain.nii.gz] in [/data]: with a library that accepts every call
    the outputs are [brain.nii_resized.gz] and
    [brain.nii_resized_meta.json]; with one that checks the extension of
    the image file the call raises. *)
Lemma folder_nii_gz_outputs_witness :
  is_image_file ("brain" ++ ".nii.gz") = true /\
  (exists r,
     resize_image permissive_library (Posixpath.join "/data" ("brain" ++ ".nii.gz"))
       (mk_Image [64; 64; 32] [1; 1; 2]%float [] [] 8) [32; 32; 16] "/out" None
     = inr r /\
     output_image_path r = Posixpath.join "/out" ("brain" ++ ".nii_resized.gz") /\
     output_meta_path r
     = Posixpath.join "/out" ("brain" ++ ".nii_resized_meta.json")) /\
  resize_image checking_library (Posixpath.join "/data" ("brain" ++ ".nii.gz"))
    (mk_Image [64; 64; 32] [1; 1; 2]%float [] [] 8) [32; 32; 16] "/out" None
  = inl LibraryError.
Proof.
  pose proof (fun lib =>
                folder_nii_gz_outputs float binary64 lib "/data" "brain" "/out"
                  (mk_Image [64; 64; 32] [1; 1; 2]%float [] [] 8) [32; 32; 16]
                  eq_refl) as Hthm.
  split; [exact (proj1 (Hthm permissive_library))|]. split.
  - eexists. split; [vm_compute; reflexivity|].
    apply (proj1 (proj2 (Hthm permissive_library))). vm_compute. reflexivity.
  - eapply (proj2 (proj2 (Hthm checking_library)));
      vm_compute; reflexivity.
Defined.

(** [scan.nii] and [scan.mha], resized to format [nii]. *)
Lemma same_stem_resize_outputs_collide_witness :
  exists r1 r2,
    resize_image checking_library (Posixpath.join "/data" ("scan" ++ "." ++ "nii"))
      (mk_Image [64; 64; 32] [1; 1; 2]%float [] [] 8) [32; 32; 16] "/out"
      (Some "nii") = inr r1 /\
    resize_image checking_library (Posixpath.join "/data" ("scan" ++ "." ++ "mha"))
      (mk_Image [10; 10; 10] [1; 1; 1]%float [] [] 8) [32; 32; 16] "/out"
      (Some "nii") = inr r2 /\
    output_meta_path r1 = output_meta_path r2 /\
    output_image_path r1 = output_image_path r2.
Proof.
  eexists. eexists.
  split; [vm_compute; reflexivity|]. split; [vm_compute; reflexivity|].
  match goal with
  | |- output_meta_path ?r1 = output_meta_path ?r2 /\ _ =>
      destruct (same_stem_resize_outputs_collide float binary64 checking_library
                  "/data" "scan" "nii" "mha" "/out" (Some "nii")
                  (mk_Image [64; 64; 32] [1; 1; 2]%float [] [] 8)
                  (mk_Image [10; 10; 10] [1; 1; 1]%float [] [] 8) [32; 32; 16]
                  r1 r2 eq_refl eq_refl eq_refl eq_refl eq_refl eq_refl
                  ltac:(vm_compute; reflexivity) ltac:(vm_compute; reflexivity))
        as (Hmeta & Himg)
  end.
  split; [exact Hmeta | exact (Himg "nii" eq_refl)].
Defined.

(** [scan.nii] and [scan.mha], two volumes of shape (4,4,4). *)
Lemma same_stem_slices_collide_witness :
  exists files1 files2,
    extract_2d_slices (fun p : ndarray2 Z => p)
      (Posixpath.join "/data" ("scan" ++ "." ++ "nii"))
      (mk_ndarray3 4 4 4 (fun i j k => i + j + k)) (Some [2; 2; 2]) 1 "/out"
    = inr files1 /\
    extract_2d_slices (fun p : ndarray2 Z => p)
      (Posixpath.join "/data" ("scan" ++ "." ++ "mha"))
      (mk_ndarray3 4 4 4 (fun i j k => i * j * k)) (Some [2; 2; 2]) 1 "/out"
    = inr files2 /\
    output_files files1 = output_files files2.
Proof.
  pose proof (extract_2d_slices_views (fun p : ndarray2 Z => p)
                (Posixpath.join "/data" ("scan" ++ "." ++ "nii"))
                (mk_ndarray3 4 4 4 (fun i j k => i + j + k)) 2 2 2 [] 1 "/out")
    as Hrun1.
  pose proof (extract_2d_slices_views (fun p : ndarray2 Z => p)
                (Posixpath.join "/data" ("scan" ++ "." ++ "mha"))
                (mk_ndarray3 4 4 4 (fun i j k => i * j * k)) 2 2 2 [] 1 "/out")
    as Hrun2.
  cbv zeta in Hrun1, Hrun2.
  eexists. eexists. split; [exact Hrun1|]. split; [exact Hrun2|].
  exact (same_stem_slices_collide Z Z (fun p => p) "/data" "scan" "nii" "mha" "/out"
           (mk_ndarray3 4 4 4 (fun i j k => i + j + k))
           (mk_ndarray3 4 4 4 (fun i j k => i * j * k))
           (Some [2; 2; 2]) 1 _ _
           eq_refl eq_refl eq_refl eq_refl eq_refl eq_refl eq_refl
           Hrun1 Hrun2).
Defined.

End FurtherWitnesses.

(* ================================================================= *)
(** ** Properties of min-max normalisation *)

Section Normalisation.
Local Open Scope string_scope.

Lemma quantize_range (x : Q) : 0 <= quantize x <= 255.
Proof. unfold quantize. lia. Qed.

Lemma quantize_comp (x y : Q) : (x == y)%Q -> quantize x = quantize y.
Proof.
  intros Heq. unfold quantize.
  rewrite (Qfloor_comp (x + (1 # 2)) (y + (1 # 2))); [reflexivity|].
  now rewrite Heq.
Qed.

Lemma observed_max_ge (x : Q) (xs : list Q) (y : Q) :
  In y (x :: xs) -> (y <= observed_max x xs)%Q.
Proof.
  unfold observed_max. induction xs as [|a xs IH]; cbn [fold_right].
  - intros [<- | []]. apply Qle_refl.
  - intros [<- | [<- | Hin]].
    + eapply Qle_trans; [apply IH; now left | apply Q.le_max_r].
    + apply Q.le_max_l.
    + eapply Qle_trans; [apply IH; now right | apply Q.le_max_r].
Qed.

Lemma observed_max_le (x : Q) (xs : list Q) (v : Q) :
  (forall y, In y (x :: xs) -> (y <= v)%Q) -> (observed_max x xs <= v)%Q.
Proof.
  unfold observed_max. induction xs as [|a xs IH]; cbn [fold_right]; intros Hall.
  - apply Hall. now left.
  - apply Q.max_lub.
    + apply Hall. right. now left.
    + apply IH. intros y [<- | Hin]; apply Hall; [now left | right; now right].
Qed.

Lemma observed_min_le (x : Q) (xs : list Q) (y : Q) :
  In y (x :: xs) -> (observed_min x xs <= y)%Q.
Proof.
  unfold observed_min. induction xs as [|a xs IH]; cbn [fold_right].
  - intros [<- | []]. apply Qle_refl.
  - intros [<- | [<- | Hin]].
    + eapply Qle_trans; [apply Q.le_min_r | apply IH; now left].
    + apply Q.le_min_l.
    + eapply Qle_trans; [apply Q.le_min_r | apply IH; now right].
Qed.

Lemma observed_min_ge (x : Q) (xs : list Q) (v : Q) :
  (forall y, In y (x :: xs) -> (v <= y)%Q) -> (v <= observed_min x xs)%Q.
Proof.
  unfold observed_min. induction xs as [|a xs IH]; cbn [fold_right]; intros Hall.
  - apply Hall. now left.
  - apply Q.min_glb.
    + apply Hall. right. now left.
    + apply IH. intros y [<- | Hin]; apply Hall; [now left | right; now right].
Qed.

Lemma pixels_In {V : Type} (p : ndarray2 V) (y : V) :
  In y (pixels p) <-> exists r c, on_plane p r c /\ y = pixel p r c.
Proof.
  unfold pixels, on_plane. rewrite in_flat_map. split.
  - intros (r & Hr & Hy). apply in_map_iff in Hy as (c & <- & Hc).
    apply range_In in Hr, Hc. exists r, c. repeat split; lia.
  - intros (r & c & (Hr & Hc) & ->). exists r. split; [apply range_In; lia|].
    apply in_map. apply range_In. lia.
Qed.

(** The two ends of the remapping, on a plane that is not constant. *)
Lemma minmax_normalize_ends (p : ndarray2 Q) (r c r' c' : Z) :
  on_plane p r c -> on_plane p r' c' ->
  (forall i j, on_plane p i j -> (pixel p r' c' <= pixel p i j <= pixel p r c)%Q) ->
  (pixel p r' c' < pixel p r c)%Q ->
  pixel (minmax_normalize p) r c = 255 /\ pixel (minmax_normalize p) r' c' = 0.
Proof.
  intros Hrc Hrc' Hbounds Hlt. unfold minmax_normalize.
  assert (Hin : In (pixel p r c) (pixels p)) by (apply pixels_In; eauto).
  assert (Hin' : In (pixel p r' c') (pixels p)) by (apply pixels_In; eauto).
  assert (Hall : forall y, In y (pixels p)
                           -> (pixel p r' c' <= y <= pixel p r c)%Q).
  { intros y Hy. apply pixels_In in Hy as (i & j & Hij & ->). now apply Hbounds. }
  destruct (pixels p) as [|x xs]; [contradiction|].
  assert (Hhi : (observed_max x xs == pixel p r c)%Q).
  { apply Qle_antisym; [|now apply observed_max_ge].
    apply observed_max_le. intros y Hy. now apply Hall. }
  assert (Hlo : (observed_min x xs == pixel p r' c')%Q).
  { apply Qle_antisym; [now apply observed_min_le|].
    apply observed_min_ge. intros y Hy. now apply Hall. }
  assert (Hne : Qeq_bool (observed_max x xs) (observed_min x xs) = false).
  { destruct (Qeq_bool (observed_max x xs) (observed_min x xs)) eqn:Heq;
      [|reflexivity].
    apply Qeq_bool_eq in Heq. rewrite Hhi, Hlo in Heq. rewrite Heq in Hlt.
    now apply Qlt_irrefl in Hlt. }
  cbn [pixel]. rewrite Hne. split.
  - rewrite (quantize_comp _ 255); [reflexivity|].
    rewrite Hhi, Hlo. field. intros Hzero. lra.
  - rewrite (quantize_comp _ 0); [reflexivity|].
    rewrite Hlo. ring.
Qed.

(** What [extract_2d_slices] writes: one raster per collected slice, the
    normalised plane. *)
Lemma extract_written {V U : Type} (norm : ndarray2 V -> ndarray2 U)
      (path out : string) (array : ndarray3 V) (location : option (list Z))
      (n : Z) (files : extraction) :
  extract_2d_slices norm path array location n out = inr files ->
  exists slices,
    collect_slices array
      (match location with None => default_location array | Some l => l end) n
    = inr slices /\
    written files
    = map (fun named => (png_path out (base_name_of path) (fst named),
                         norm (snd named))) slices.
Proof.
  unfold extract_2d_slices. intros Hrun.
  destruct (collect_slices array _ n) as [e | slices]; [discriminate|].
  cbn [bind] in Hrun. rewrite (write_loop norm out) in Hrun.
  injection Hrun as <-. exists slices. split; reflexivity.
Qed.

(** C9, as stated, fails on a constant slice: its maximum-intensity
    voxel (every voxel is one) is written as 0, not as 255.  Extracting
    the middle slices of a (2,2,2) array that holds 7 everywhere writes
    three rasters, all of them 0 at every position. *)
Lemma C9_constant_slice_maps_to_zero :
  on_plane (mk_ndarray2 2 2 (fun _ _ => 7%Q)) 0 0 /\
  (forall i j, on_plane (mk_ndarray2 2 2 (fun _ _ => 7%Q)) i j ->
               (pixel (mk_ndarray2 2 2 (fun _ _ => 7%Q)) i j
                <= pixel (mk_ndarray2 2 2 (fun _ _ => 7%Q)) 0 0)%Q) /\
  pixel (minmax_normalize (mk_ndarray2 2 2 (fun _ _ => 7%Q))) 0 0 = 0 /\
  exists files,
    extract_2d_slices minmax_normalize "scan.nii" (constant_array 2 2 2 7%Q)
                      None 1 "out" = inr files /\
    List.length (written files) = 3%nat /\
    Forall (fun w => forall r c, pixel (snd w) r c = 0) (written files).
Proof.
  split; [unfold on_plane; cbn; lia|].
  split; [intros i j _; apply Qle_refl|].
  split; [reflexivity|].
  eexists. split; [apply (extract_2d_slices_views minmax_normalize "scan.nii"
                            (constant_array 2 2 2 7%Q) 1 1 1 [] 1 "out")|].
  split; [reflexivity|].
  repeat constructor.
Qed.

(** C9, amended.  Every pixel of a normalised plane lies in [0, 255].
    On a plane that is not constant, a voxel of maximum intensity is
    sent to 255 and a voxel of minimum intensity to 0; a constant plane
    is sent to 0 everywhere.  Every raster [extract_2d_slices] writes is
    the normalisation of a slice it collected, so its pixels lie in
    [0, 255]. *)
Theorem C9_normalized_range :
  (forall (p : ndarray2 Q) (r c : Z), 0 <= pixel (minmax_normalize p) r c <= 255) /\
  (forall (p : ndarray2 Q) (r c r' c' : Z),
      on_plane p r c -> on_plane p r' c' ->
      (forall i j, on_plane p i j
                   -> (pixel p r' c' <= pixel p i j <= pixel p r c)%Q) ->
      (pixel p r' c' < pixel p r c)%Q ->
      pixel (minmax_normalize p) r c = 255 /\
      pixel (minmax_normalize p) r' c' = 0) /\
  (forall (p : ndarray2 Q) (v : Q),
      (forall i j, on_plane p i j -> pixel p i j = v) ->
      forall r c, on_plane p r c -> pixel (minmax_normalize p) r c = 0) /\
  (forall (path out : string) (array : ndarray3 Q) (location : option (list Z))
          (n : Z) (files : extraction),
      extract_2d_slices minmax_normalize path array location n out = inr files ->
      exists slices,
        collect_slices array
          (match location with None => default_location array | Some l => l end) n
        = inr slices /\
        map snd (written files) = map minmax_normalize (map snd slices) /\
        Forall (fun w => forall r c, 0 <= pixel (snd w) r c <= 255)
               (written files)).
Proof.
  assert (Hrange : forall (p : ndarray2 Q) (r c : Z),
             0 <= pixel (minmax_normalize p) r c <= 255).
  { intros p r c. unfold minmax_normalize.
    destruct (pixels p); cbn [pixel]; [lia | apply quantize_range]. }
  split; [exact Hrange|]. split; [exact minmax_normalize_ends|]. split.
  - intros p v Hconst r c Hrc. unfold minmax_normalize.
    assert (Hall : forall y, In y (pixels p) -> y = v).
    { intros y Hy. apply pixels_In in Hy as (i & j & Hij & ->). now apply Hconst. }
    destruct (pixels p) as [|x xs]; [reflexivity|].
    assert (Hhi : (observed_max x xs == v)%Q).
    { apply Qle_antisym.
      - apply observed_max_le. intros y Hy. rewrite (Hall y Hy). apply Qle_refl.
      - rewrite <- (Hall x (or_introl eq_refl)).
        apply observed_max_ge. now left. }
    assert (Hlo : (observed_min x xs == v)%Q).
    { apply Qle_antisym.
      - rewrite <- (Hall x (or_introl eq_refl)).
        apply observed_min_le. now left.
      - apply observed_min_ge. intros y Hy. rewrite (Hall y Hy). apply Qle_refl. }
    cbn [pixel]. rewrite (Qeq_eq_bool _ _ (Qeq_trans _ _ _ Hhi (Qeq_sym _ _ Hlo))).
    rewrite (quantize_comp _ 0); [reflexivity | ring].
  - intros path out array location n files Hrun.
    destruct (extract_written minmax_normalize path out array location n files Hrun)
      as (slices & Hcollect & Hwritten).
    exists slices. split; [exact Hcollect|]. rewrite Hwritten. split.
    + rewrite !map_map. reflexivity.
    + apply Forall_forall. intros w Hw.
      apply in_map_iff in Hw as (named & <- & _). intros r c. apply Hrange.
Qed.

(** A 2 x 2 plane holding 10, 20, 30 and 50: the voxel 50 is written as
    255 and the voxel 10 as 0. *)
Lemma C9_normalized_range_witness :
  pixel (minmax_normalize
           (mk_ndarray2 2 2 (fun r c => inject_Z (10 + 20 * r + r * c * 20 + 10 * c))))
        1 1 = 255 /\
  pixel (minmax_normalize
           (mk_ndarray2 2 2 (fun r c => inject_Z (10 + 20 * r + r * c * 20 + 10 * c))))
        0 0 = 0.
Proof.
  apply (proj1 (proj2 C9_normalized_range)
           (mk_ndarray2 2 2 (fun r c => inject_Z (10 + 20 * r + r * c * 20 + 10 * c)))
           1 1 0 0).
  - unfold on_plane. cbn. lia.
  - unfold on_plane. cbn. lia.
  - intros i j ((Hi0 & Hi1) & (Hj0 & Hj1)). cbn [pixel rows cols] in *.
    rewrite <- !Zle_Qle. nia.
  - reflexivity.
Defined.

End Normalisation.
